(** * shell2.c: pipeline construction and job execution

    A shallow embedding of [src/shell2.c].  Every C function is a Rocq
    function over an explicit process state; the operating system is an
    oracle record that fixes the return value of every system call, so the
    same definitions describe the shell, the forked children and the
    watchdog: which process one is looking at is decided by what [fork]
    returned to it. *)

From Stdlib Require Import ZArith Ascii String.
From Stdlib.Strings Require Import Byte.
From stdpp Require Import base tactics option list gmap strings pretty.

Local Open Scope string_scope.
Local Open Scope list_scope.
Local Open Scope nat_scope.

#[local] Set Warnings "-clear-no-such-hyp".

(** ** Constants of the source *)

Definition MAX_INPUT_LENGTH : nat := 1024.
Definition MAX_ARGUMENTS : nat := 128.
Definition TIMEOUT_SECONDS : Z := 10.

Definition nl : string := String "010"%char EmptyString.

Definition SHELL_PROMPT : string := "> ".

(** [" \t\r\n"] *)
Definition TOKEN_DELIMITERS : string :=
  String " "%char (String "009"%char (String "013"%char nl)).

(** Values of the platform headers (Linux): [<unistd.h>], [<signal.h>],
    [<fcntl.h>]. *)
Definition STDIN_FILENO : Z := 0.
Definition STDOUT_FILENO : Z := 1.
Definition SIGINT : Z := 2.
Definition O_RDONLY : Z := 0.
Definition O_WRONLY : Z := 1.
Definition O_ACCMODE : Z := 3.
Definition O_CREAT : Z := 64.     (* 0100 *)
Definition O_TRUNC : Z := 512.    (* 01000 *)
Definition O_APPEND : Z := 1024.  (* 02000 *)

(** ** Wait statuses, as [<sys/wait.h>] of glibc decodes them *)

Definition WTERMSIG (status : Z) : Z := Z.land status 127.
Definition WIFEXITED (status : Z) : bool := (WTERMSIG status =? 0)%Z.
Definition WEXITSTATUS (status : Z) : Z := Z.shiftr (Z.land status 65280) 8.

(** [(signed char) v] for [0 <= v < 256]. *)
Definition signed_char (v : Z) : Z := (if v <? 128 then v else v - 256)%Z.
Definition WIFSIGNALED (status : Z) : bool :=
  (0 <? Z.shiftr (signed_char (WTERMSIG status + 1)) 1)%Z.

(** The status [waitpid] stores for a child that called [exit(code)], and
    for one killed by signal [sig]. *)
Definition W_EXITCODE (code sig : Z) : Z := Z.lor (Z.shiftl code 8) sig.

(** ** The process state *)

(** What a standard stream of the process is connected to.  A pipe end is
    named by its place in [pipe_file_descriptors]: [PipeStream j e] is the
    open file behind [pipe_file_descriptors[j][e]] ([e = 0] the read end,
    [e = 1] the write end). *)
Inductive stream : Type :=
  | Inherited
  | PipeStream (j e : nat)
  | FileStream (path : string) (flags : Z).

Record file : Type := File { f_mode : Z; f_data : list byte }.

Inductive event : Type :=
  | Stdout (text : string)
  | Stderr (text : string)
  | Perror (tag : string)
  | SysSigDfl (signum : Z)
  | SysFork (ret : Z)
  | SysPipe (pipe_index : nat) (ret : Z)
  | SysDup2 (src : stream) (target : Z) (ret : Z)
  | SysClosePipe (j e : nat)
  | SysOpen (path : string) (flags mode : Z) (ret : Z)
  | SysCloseFile (path : string)
  | SysExecvp (prog : string) (argv : list string)
  | SysWaitpid (pid : Z)
  | SysKill (pid sig : Z)
  | SysSleep (seconds : Z)
  | SysChdir (path : string) (ret : Z).

Record process : Type := Process {
  foreground_process_id : Z;
  pipe_fds : gset (nat * nat);
  std_in : stream;
  std_out : stream;
  fs : gmap string file;
  trace : list event
}.

(** How a piece of code ends. *)
Inductive control : Type :=
  | Running
  | Returned
  | Exited (code : Z)
  | Execed (prog : string) (argv : list string)
  | Undefined.

Inductive read_result : Type :=
  | ReadError
  | ReadEOF
  | ReadLine (buffer : string).

(** The operating system, seen from the code: the value each call returns. *)
Record os_world : Type := OsWorld {
  getcwd_ret : nat -> option string;
  fgets_ret : read_result;
  getenv_ret : string -> option string;
  environ : list string;
  chdir_ret : string -> Z;
  shell_fork_ret : Z;
  timeout_fork_ret : Z;
  wait_status : Z;
  pipe_ret : nat -> Z;
  fork_ret : nat -> Z;
  dup2_ret : stream -> Z -> Z;
  open_ret : string -> Z -> Z;
  execvp_fails : string -> bool;
  umask : Z;
  program_stdout : list string -> gmap string file -> list byte
}.

Definition action : Type := process -> process * control.

Definition log (e : event) (p : process) : process :=
  Process (foreground_process_id p) (pipe_fds p) (std_in p) (std_out p)
          (fs p) (trace p ++ [e]).

Definition set_foreground (pid : Z) (p : process) : process :=
  Process pid (pipe_fds p) (std_in p) (std_out p) (fs p) (trace p).

Definition set_pipe_fds (s : gset (nat * nat)) (p : process) : process :=
  Process (foreground_process_id p) s (std_in p) (std_out p) (fs p) (trace p).

Definition set_fs (m : gmap string file) (p : process) : process :=
  Process (foreground_process_id p) (pipe_fds p) (std_in p) (std_out p)
          m (trace p).

Definition set_std (target : Z) (s : stream) (p : process) : process :=
  if (target =? STDIN_FILENO)%Z then
    Process (foreground_process_id p) (pipe_fds p) s (std_out p) (fs p) (trace p)
  else if (target =? STDOUT_FILENO)%Z then
    Process (foreground_process_id p) (pipe_fds p) (std_in p) s (fs p) (trace p)
  else p.

Definition emit (e : event) : action := fun p => (log e p, Running).
Definition finish (c : control) : action := fun p => (p, c).
Definition skip : action := finish Running.

Definition and_then (a b : action) : action :=
  fun p => let r := a p in
           match r.2 with
           | Running => b r.1
           | _ => r
           end.

Declare Scope action_scope.
Delimit Scope action_scope with action.
Bind Scope action_scope with action.
Notation "a ;; b" := (and_then a b)
  (at level 100, b at level 200, right associativity) : action_scope.
Local Open Scope action_scope.

(** A call: the callee's [return] resumes the caller. *)
Definition call (a : action) : action :=
  fun p => let r := a p in
           match r.2 with
           | Returned => (r.1, Running)
           | _ => r
           end.

(** [for] loops whose body may leave the function. *)
Fixpoint for_each {A : Type} (body : A -> action) (l : list A) : action :=
  match l with
  | [] => skip
  | x :: l' => body x ;; for_each body l'
  end.

(** ** System calls *)

Definition sys_close_pipe (j e : nat) : action :=
  fun p => (log (SysClosePipe j e) (set_pipe_fds (pipe_fds p ∖ {[ (j, e) ]}) p),
            Running).

Definition sys_pipe (os : os_world) (j : nat) : action :=
  fun p =>
    let r := pipe_ret os j in
    if (r <? 0)%Z then (log (SysPipe j r) p, Running)
    else (log (SysPipe j r)
              (set_pipe_fds (pipe_fds p ∪ {[ (j, 0); (j, 1) ]}) p), Running).

Definition sys_dup2 (os : os_world) (src : stream) (target : Z) : action :=
  fun p =>
    let r := dup2_ret os src target in
    if (r <? 0)%Z then (log (SysDup2 src target r) p, Running)
    else (log (SysDup2 src target r) (set_std target src p), Running).

Definition has_flag (flags f : Z) : bool := (Z.land flags f =? f)%Z.

Definition opened_for_writing (flags : Z) : bool :=
  negb (Z.land flags O_ACCMODE =? O_RDONLY)%Z.

(** What a successful [open] does to the file system. *)
Definition open_effect (os : os_world) (path : string) (flags mode : Z)
    (m : gmap string file) : gmap string file :=
  match m !! path with
  | Some f =>
      if has_flag flags O_TRUNC && opened_for_writing flags
      then <[path := File (f_mode f) []]> m
      else m
  | None =>
      if has_flag flags O_CREAT
      then <[path := File (Z.ldiff mode (umask os)) []]> m
      else m
  end.

Definition sys_open (os : os_world) (path : string) (flags mode : Z) : action :=
  fun p =>
    let r := open_ret os path flags in
    if (r <? 0)%Z then (log (SysOpen path flags mode r) p, Running)
    else (log (SysOpen path flags mode r)
              (set_fs (open_effect os path flags mode (fs p)) p), Running).

(** Bytes written at offset 0 of a freshly opened file. *)
Definition write_effect (path : string) (flags : Z) (out : list byte)
    (m : gmap string file) : gmap string file :=
  match m !! path with
  | Some f =>
      if opened_for_writing flags then
        if has_flag flags O_APPEND
        then <[path := File (f_mode f) (f_data f ++ out)]> m
        else <[path := File (f_mode f) (out ++ drop (length out) (f_data f))]> m
      else m
  | None => m
  end.

(** ** Tokenization (main, lines 111-118) *)

Definition is_delimiter (delimiters : string) (c : ascii) : bool :=
  existsb (Ascii.eqb c) (list_ascii_of_string delimiters).

(** The successive results of [strtok] on one buffer, each with the offset
    at which the token starts in the buffer. *)
Fixpoint strtok_scan (delimiters s : string) (pos : nat)
    (cur : option (nat * string)) : list (nat * string) :=
  match s with
  | EmptyString => match cur with Some t => [t] | None => [] end
  | String c s' =>
      if is_delimiter delimiters c then
        match cur with
        | Some t => t :: strtok_scan delimiters s' (S pos) None
        | None => strtok_scan delimiters s' (S pos) None
        end
      else
        match cur with
        | Some (start, tok) =>
            strtok_scan delimiters s' (S pos)
                        (Some (start, tok +:+ String c EmptyString))
        | None =>
            strtok_scan delimiters s' (S pos) (Some (pos, String c EmptyString))
        end
  end.

Definition strtok_all (delimiters s : string) : list (nat * string) :=
  strtok_scan delimiters s 0 None.

Fixpoint last_char (c : ascii) (s : string) : ascii :=
  match s with
  | EmptyString => c
  | String c' s' => last_char c' s'
  end.

Fixpoint drop_last_char (s : string) : string :=
  match s with
  | EmptyString => EmptyString
  | String _ EmptyString => EmptyString
  | String c s' => String c (drop_last_char s')
  end.

Definition is_quote (c : ascii) : bool :=
  Ascii.eqb c "034"%char || Ascii.eqb c "039"%char.

(** [process_token_quotes] on the token that starts at [offset] of the input
    buffer.  [None]: the store to [token[char_index-2]] falls before the
    buffer (a token of the one character, a quote, at offset 0). *)
Definition process_token_quotes (t : nat * string) : option string :=
  let (offset, token) := t in
  match token with
  | EmptyString => Some token
  | String opening_quote rest =>
      if is_quote opening_quote then
        if Ascii.eqb opening_quote (last_char opening_quote rest) then
          match rest with
          | EmptyString => if offset =? 0 then None else Some EmptyString
          | _ => Some (drop_last_char rest)
          end
        else Some token
      else Some token
  end.

Fixpoint strip_newline (buffer : string) : string :=
  match buffer with
  | EmptyString => EmptyString
  | String c EmptyString =>
      if Ascii.eqb c "010"%char then EmptyString else buffer
  | String c s' => String c (strip_newline s')
  end.

(** ** Pipeline splitter (lines 384-410) *)

Inductive split_result : Type :=
  | SplitInvalid
  | SplitOverflow
  | SplitOk (commands_by_pipe : list (list string)).

(** [commands_by_pipe[pipe_command_count][command_token_count]] lies inside
    the [MAX_ARGUMENTS] by [MAX_ARGUMENTS] array. *)
Definition in_bounds (pipe_command_count command_token_count : nat) : bool :=
  (pipe_command_count <? MAX_ARGUMENTS) && (command_token_count <? MAX_ARGUMENTS).

(** The [while] loop and the store that follows it.  [done] holds the rows
    already closed by a [NULL], [cur] the row being filled, so that
    [pipe_command_count = length done] and
    [command_token_count = length cur]. *)
Fixpoint split_loop (command_arguments : list string)
    (done : list (list string)) (cur : list string) : split_result :=
  match command_arguments with
  | [] =>
      if in_bounds (length done) (length cur)
      then SplitOk (done ++ [cur]) else SplitOverflow
  | a :: rest =>
      if String.eqb a "|" then
        if length cur =? 0 then SplitInvalid
        else if in_bounds (length done) (length cur)
             then split_loop rest (done ++ [cur]) []
             else SplitOverflow
      else if in_bounds (length done) (length cur)
           then split_loop rest done (cur ++ [a])
           else SplitOverflow
  end.

Definition split_commands (command_arguments : list string) : split_result :=
  split_loop command_arguments [] [].

(** ** Stage launcher: [execute_single_command] *)

Inductive redirection : Type :=
  | RedirectOutput (i : nat) (path : string)
  | RedirectInput (i : nat) (path : string).

(** The [for] loop up to its [break]: the first [i] at which one of the two
    tests succeeds.  [args] is what remains from index [i] on. *)
Fixpoint find_redirection (args : list string) (i : nat) : option redirection :=
  match args with
  | [] => None
  | a :: rest =>
      match rest with
      | next :: _ =>
          if String.eqb a ">" then Some (RedirectOutput i next)
          else if String.eqb a "<" then Some (RedirectInput i next)
          else find_redirection rest (S i)
      | [] => find_redirection rest (S i)
      end
  end.

Definition output_flags : Z := Z.lor (Z.lor O_WRONLY O_CREAT) O_TRUNC.
Definition output_mode : Z := 420. (* 0644 *)

Definition redirect_output (os : os_world) (path : string) : action :=
  sys_open os path output_flags output_mode ;;
  if (open_ret os path output_flags <? 0)%Z then
    emit (Perror "open") ;; finish (Exited 1)
  else
    sys_dup2 os (FileStream path output_flags) STDOUT_FILENO ;;
    if (dup2_ret os (FileStream path output_flags) STDOUT_FILENO <? 0)%Z then
      emit (Perror "dup2") ;; emit (SysCloseFile path) ;; finish (Exited 1)
    else emit (SysCloseFile path).

Definition redirect_input (os : os_world) (path : string) : action :=
  sys_open os path O_RDONLY 0 ;;
  if (open_ret os path O_RDONLY <? 0)%Z then
    emit (Perror "open") ;; finish (Exited 1)
  else
    sys_dup2 os (FileStream path O_RDONLY) STDIN_FILENO ;;
    if (dup2_ret os (FileStream path O_RDONLY) STDIN_FILENO <? 0)%Z then
      emit (Perror "dup2") ;; emit (SysCloseFile path) ;; finish (Exited 1)
    else emit (SysCloseFile path).

(** [execvp(args[0], args)] and what follows it. *)
Definition exec_stage (os : os_world) (argv : list string) : action :=
  match argv with
  | [] => skip
  | prog :: _ =>
      emit (SysExecvp prog argv) ;;
      if execvp_fails os prog
      then emit (Perror "execvp") ;; finish (Exited 1)
      else finish (Execed prog argv)
  end.

Definition execute_single_command (os : os_world) (args : list string) : action :=
  match find_redirection args 0 with
  | Some (RedirectOutput i path) =>
      redirect_output os path ;; exec_stage os (take i args)
  | Some (RedirectInput i path) =>
      redirect_input os path ;; exec_stage os (take i args)
  | None => exec_stage os args
  end.

(** ** Pipeline orchestrator: [execute_command_with_pipes_and_redirection] *)

Definition close_both (j : nat) : action :=
  sys_close_pipe j 0 ;; sys_close_pipe j 1.

Definition dup2_or_exit (os : os_world) (src : stream) (target : Z)
    (rest : action) : action :=
  sys_dup2 os src target ;;
  if (dup2_ret os src target <? 0)%Z
  then emit (Perror "dup2") ;; finish (Exited 1)
  else rest.

(** The child's branch of the spawning loop, lines 433-476. *)
Definition wire_child (os : os_world) (num_pipes cmd_index : nat) : action :=
  if cmd_index =? 0 then
    dup2_or_exit os (PipeStream 0 1) STDOUT_FILENO
      (sys_close_pipe 0 0 ;;
       for_each close_both (seq 1 (num_pipes - 1)))
  else if cmd_index =? num_pipes then
    dup2_or_exit os (PipeStream (num_pipes - 1) 0) STDIN_FILENO
      (sys_close_pipe (num_pipes - 1) 1 ;;
       for_each close_both (seq 0 (num_pipes - 1)))
  else
    dup2_or_exit os (PipeStream (cmd_index - 1) 0) STDIN_FILENO
      (dup2_or_exit os (PipeStream cmd_index 1) STDOUT_FILENO
         (for_each
            (fun j =>
               if j =? cmd_index - 1 then sys_close_pipe j 1
               else if j =? cmd_index then sys_close_pipe j 0
               else close_both j)
            (seq 0 num_pipes))).

Definition spawn_stage (os : os_world) (commands_by_pipe : list (list string))
    (num_pipes cmd_index : nat) : action :=
  emit (SysFork (fork_ret os cmd_index)) ;;
  if (fork_ret os cmd_index =? 0)%Z then
    wire_child os num_pipes cmd_index ;;
    call (execute_single_command os (nth cmd_index commands_by_pipe [])) ;;
    finish (Exited 1)
  else if (fork_ret os cmd_index <? 0)%Z then
    emit (Perror "fork") ;; finish Returned
  else skip.

Definition create_pipe (os : os_world) (pipe_index : nat) : action :=
  sys_pipe os pipe_index ;;
  if (pipe_ret os pipe_index <? 0)%Z
  then emit (Perror "pipe") ;; finish Returned
  else skip.

Definition run_pipeline (os : os_world) (commands_by_pipe : list (list string))
    (num_pipes : nat) : action :=
  let pipe_command_count := num_pipes + 1 in
  for_each (create_pipe os) (seq 0 num_pipes) ;;
  for_each (spawn_stage os commands_by_pipe num_pipes) (seq 0 pipe_command_count) ;;
  for_each close_both (seq 0 num_pipes) ;;
  for_each (fun proc_index => emit (SysWaitpid (fork_ret os proc_index)))
           (seq 0 pipe_command_count).

Definition execute_command_with_pipes_and_redirection (os : os_world)
    (command_arguments : list string) : action :=
  match split_commands command_arguments with
  | SplitInvalid =>
      emit (Stdout ("Invalid pipe command" +:+ nl)) ;; finish Returned
  | SplitOverflow => finish Undefined
  | SplitOk commands_by_pipe =>
      let num_pipes := length commands_by_pipe - 1 in
      if num_pipes =? 0 then
        call (execute_single_command os (nth 0 commands_by_pipe [])) ;;
        finish Returned
      else run_pipeline os commands_by_pipe num_pipes
  end.

(** ** Foreground supervisor and the prompt loop: [main] *)

Definition terminate_after_timeout (seconds process_id : Z) : action :=
  emit (SysSleep seconds) ;;
  emit (Stdout ("Foreground process timed out after " +:+ pretty seconds
                +:+ " seconds." +:+ nl)) ;;
  emit (SysKill process_id SIGINT).

Definition handle_interrupt_signal (signal_number : Z) : action :=
  fun p =>
    if (foreground_process_id p =? -1)%Z then (p, Running)
    else emit (SysKill (foreground_process_id p) SIGINT) p.

(** Lines 258-261. *)
Definition report_status (exit_status : Z) : action :=
  if WIFEXITED exit_status && negb (WEXITSTATUS exit_status =? 0)%Z
  then emit (Stderr ("Process exited with status "
                     +:+ pretty (WEXITSTATUS exit_status) +:+ nl))
  else skip.

Definition register_foreground (pid : Z) : action :=
  fun p => (set_foreground pid p, Running).

(** Lines 236-263: the parent's side of a foreground job. *)
Definition supervise_foreground (os : os_world) (child_pid : Z) : action :=
  register_foreground child_pid ;;
  emit (SysFork (timeout_fork_ret os)) ;;
  if (timeout_fork_ret os <? 0)%Z then
    emit (Perror "fork for timeout process")
  else if (timeout_fork_ret os =? 0)%Z then
    emit (SysSigDfl SIGINT) ;;
    call (terminate_after_timeout TIMEOUT_SECONDS child_pid) ;;
    finish (Exited 0)
  else
    emit (SysWaitpid child_pid) ;;
    emit (SysKill (timeout_fork_ret os) SIGINT) ;;
    emit (SysWaitpid (timeout_fork_ret os)) ;;
    report_status (wait_status os).

(** Lines 216-265: an external command. *)
Definition run_external (os : os_world) (command_arguments : list string)
    (is_background_process : bool) : action :=
  emit (SysFork (shell_fork_ret os)) ;;
  if (shell_fork_ret os <? 0)%Z then emit (Perror "fork")
  else if (shell_fork_ret os =? 0)%Z then
    emit (SysSigDfl SIGINT) ;;
    call (execute_command_with_pipes_and_redirection os command_arguments) ;;
    finish (Exited 1)
  else if is_background_process then
    register_foreground (-1) ;;
    emit (Stdout ("[" +:+ pretty (shell_fork_ret os)
                  +:+ "] Background process started" +:+ nl))
  else supervise_foreground os (shell_fork_ret os).

(** *** Built-in commands *)

Definition change_directory (os : os_world) (path : string) : action :=
  emit (SysChdir path (chdir_ret os path)) ;;
  if (chdir_ret os path =? 0)%Z then skip else emit (Perror "cd").

Definition builtin_cd (os : os_world) (command_arguments : list string) : action :=
  match command_arguments !! 1 with
  | None =>
      match getenv_ret os "HOME" with
      | Some home_directory => change_directory os home_directory
      | None => emit (Stderr ("cd: HOME not set" +:+ nl))
      end
  | Some path => change_directory os path
  end.

Definition builtin_pwd (os : os_world) : action :=
  match getcwd_ret os 1 with
  | None => emit (Perror "pwd")
  | Some working_directory_path => emit (Stdout (working_directory_path +:+ nl))
  end.

Definition echo_argument (os : os_world) (argument : string) : action :=
  match argument with
  | String "$"%char name =>
      match getenv_ret os name with
      | Some env_value => emit (Stdout (env_value +:+ " "))
      | None => emit (Stdout " ")
      end
  | _ => emit (Stdout (argument +:+ " "))
  end.

Definition builtin_echo (os : os_world) (command_arguments : list string) : action :=
  for_each (echo_argument os) (drop 1 command_arguments) ;;
  emit (Stdout nl).

Definition builtin_env (os : os_world) (command_arguments : list string) : action :=
  match command_arguments !! 1 with
  | Some name =>
      match getenv_ret os name with
      | Some env_value => emit (Stdout (env_value +:+ nl))
      | None => emit (Stdout nl)
      end
  | None => for_each (fun entry => emit (Stdout (entry +:+ nl))) (environ os)
  end.

(** With two parts or more the loop of lines 203-206 stores into
    [env_var_parts[2]], past the end of the two-element array. *)
Definition builtin_setenv (command_arguments : list string) : action :=
  match command_arguments !! 1 with
  | None => emit (Stderr ("setenv: missing argument" +:+ nl))
  | Some assignment =>
      match strtok_all "=" assignment with
      | [] | [_] => emit (Stderr ("setenv: invalid format. Use NAME=VALUE" +:+ nl))
      | _ :: _ :: _ => finish Undefined
      end
  end.

(** Lines 136-265.  With no token left, [strcmp] reads through the null
    pointer in [command_arguments[0]]. *)
Definition dispatch (os : os_world) (command_arguments : list string)
    (is_background_process : bool) : action :=
  match command_arguments with
  | [] => finish Undefined
  | name :: _ =>
      if String.eqb name "cd" then builtin_cd os command_arguments
      else if String.eqb name "pwd" then builtin_pwd os
      else if String.eqb name "echo" then builtin_echo os command_arguments
      else if String.eqb name "exit" then finish (Exited 0)
      else if String.eqb name "env" then builtin_env os command_arguments
      else if String.eqb name "setenv" then builtin_setenv command_arguments
      else run_external os command_arguments is_background_process
  end.

Definition tokenize (line : string) : option (list string) :=
  mapM process_token_quotes (strtok_all TOKEN_DELIMITERS line).

(** What the shell does with one line once it is tokenized, lines 120-265.
    [command_arguments] has [MAX_ARGUMENTS] slots, the last token is
    followed by a [NULL]. *)
Definition run_tokens (os : os_world) (tokens : list string) : action :=
  match last tokens with
  | None => skip
  | Some final_argument =>
      if MAX_ARGUMENTS <=? length tokens then finish Undefined
      else if String.eqb final_argument "&"
           then dispatch os (take (length tokens - 1) tokens) true
           else dispatch os tokens false
  end.

(** One turn of the [while (true)] loop of [main]; [Running] at its end is
    the next turn. *)
Definition shell_iteration (os : os_world) : action :=
  match getcwd_ret os 0 with
  | None => emit (Perror "getcwd") ;; finish (Exited 1)
  | Some working_directory_path =>
      emit (Stdout (working_directory_path +:+ " " +:+ SHELL_PROMPT)) ;;
      match fgets_ret os with
      | ReadError =>
          emit (Stderr ("Error reading input" +:+ nl)) ;; finish (Exited 1)
      | ReadEOF => emit (Stdout ("exit" +:+ nl)) ;; finish (Exited 0)
      | ReadLine user_input_buffer =>
          let line := strip_newline user_input_buffer in
          if String.length line =? 0 then skip
          else match tokenize line with
               | None => finish Undefined
               | Some tokens => run_tokens os tokens
               end
      end
  end.

(** The shell as [main] starts it: no foreground job, no pipe descriptor. *)
Definition initial_process (m : gmap string file) : process :=
  Process (-1) ∅ Inherited Inherited m [].

(** ** A stage run to its end *)

(** The file system after the process has run [a]: when [a] ends in a
    successful [execvp], the program writes its output to whatever standard
    output is by then. *)
Definition final_fs (os : os_world) (r : process * control) : gmap string file :=
  match r with
  | (p, Execed prog argv) =>
      match std_out p with
      | FileStream path flags =>
          write_effect path flags (program_stdout os argv (fs p)) (fs p)
      | _ => fs p
      end
  | (p, _) => fs p
  end.

Definition run_stage (os : os_world) (args : list string)
    (m : gmap string file) : gmap string file :=
  final_fs os (execute_single_command os args (initial_process m)).

(** ** Vocabulary of the statements *)

Definition add_events (evs : list event) (p : process) : process :=
  Process (foreground_process_id p) (pipe_fds p) (std_in p) (std_out p)
          (fs p) (trace p ++ evs).

(** The token sequence a list of stages stands for. *)
Fixpoint join_stages (stages : list (list string)) : list string :=
  match stages with
  | [] => []
  | s :: rest =>
      match rest with
      | [] => s
      | _ :: _ => s ++ "|" :: join_stages rest
      end
  end.

Definition closed_rows (done : list (list string)) : list string :=
  done ≫= (fun s => s ++ ["|"]).

Definition count_pipes (args : list string) : nat :=
  length (List.filter (fun a => String.eqb a "|") args).

Definition is_spawn_event (e : event) : bool :=
  match e with
  | SysPipe _ _ | SysFork _ => true
  | _ => false
  end.

(** An action is quiet when it creates no pipe, forks no process and leaves
    the table of pipe descriptors as it found it. *)
Definition quiet (a : action) : Prop :=
  forall p : process,
    pipe_fds (a p).1 = pipe_fds p /\
    exists evs, trace (a p).1 = trace p ++ evs /\
                Forall (fun e => is_spawn_event e = false) evs.

Definition both_ends (j : nat) : list (nat * nat) := [(j, 0); (j, 1)].

(** The process after [close] on each descriptor of [ds], in order. *)
Definition closes (ds : list (nat * nat)) (p : process) : process :=
  Process (foreground_process_id p) (pipe_fds p ∖ list_to_set ds)
          (std_in p) (std_out p) (fs p)
          (trace p ++ map (fun d => SysClosePipe d.1 d.2) ds).

Definition is_pipe_event (e : event) : bool :=
  match e with SysPipe _ _ => true | _ => false end.

Definition is_fork_event (e : event) : bool :=
  match e with SysFork _ => true | _ => false end.

Definition count_events (f : event -> bool) (evs : list event) : nat :=
  length (List.filter f evs).

Definition pipeline_trace (os : os_world) (N : nat) : list event :=
  map (fun j => SysPipe j (pipe_ret os j)) (seq 0 (N - 1))
  ++ map (fun i => SysFork (fork_ret os i)) (seq 0 N)
  ++ map (fun d => SysClosePipe d.1 d.2) (seq 0 (N - 1) ≫= both_ends)
  ++ map (fun i => SysWaitpid (fork_ret os i)) (seq 0 N).

(** The process once [dup2 (src, target)] has succeeded. *)
Definition dup_to (os : os_world) (src : stream) (target : Z) (p : process) : process :=
  log (SysDup2 src target (dup2_ret os src target)) (set_std target src p).

(** The descriptors stage [k] of a pipeline with [n] pipes closes, in the
    order of the source. *)
Definition closed_by_child (n k : nat) : list (nat * nat) :=
  if k =? 0 then (0, 0) :: (seq 1 (n - 1) ≫= both_ends)
  else if k =? n then (n - 1, 1) :: (seq 0 (n - 1) ≫= both_ends)
  else seq 0 n ≫= (fun j => if j =? k - 1 then [(j, 1)]
                            else if j =? k then [(j, 0)]
                            else both_ends j).

Definition wired (os : os_world) (n k : nat) (p : process) : process :=
  if k =? 0 then dup_to os (PipeStream 0 1) STDOUT_FILENO p
  else if k =? n then dup_to os (PipeStream (n - 1) 0) STDIN_FILENO p
  else dup_to os (PipeStream k 1) STDOUT_FILENO
              (dup_to os (PipeStream (k - 1) 0) STDIN_FILENO p).

(** The pipe descriptors still open in stage [k] when it calls the
    launcher: the ones it has just duplicated. *)
Definition kept_fds (n k : nat) : gset (nat * nat) :=
  if k =? 0 then {[ (0, 1) ]}
  else if k =? n then {[ (n - 1, 0) ]}
  else {[ (k - 1, 0); (k, 1) ]}.

Definition stage_child (os : os_world) (stages : list (list string))
    (n k : nat) : action :=
  wire_child os n k ;;
  call (execute_single_command os (nth k stages [])) ;;
  finish (Exited 1).

Definition is_open_event (e : event) : bool :=
  match e with SysOpen _ _ _ _ => true | _ => false end.

Definition redirect (os : os_world) (r path : string) : action :=
  if String.eqb r ">" then redirect_output os path else redirect_input os path.

Ltac run_launcher :=
  unfold redirect, redirect_output, redirect_input, exec_stage, and_then, emit,
    finish, skip, sys_open, sys_dup2, log, set_std, set_fs; simpl.

Ltac case_oracle os :=
  repeat match goal with
         | |- context [(open_ret os ?a ?b <? 0)%Z] =>
             destruct (open_ret os a b <? 0)%Z eqn:?; simpl
         | |- context [(dup2_ret os ?a ?b <? 0)%Z] =>
             destruct (dup2_ret os a b <? 0)%Z eqn:?; simpl
         | |- context [execvp_fails os ?a] =>
             destruct (execvp_fails os a) eqn:?; simpl
         end.

(** The mode of [path] once it has been opened with the flags of [>]. *)
Definition mode_after_open (os : os_world) (path : string)
    (m : gmap string file) : Z :=
  match m !! path with
  | Some f => f_mode f
  | None => Z.ldiff output_mode (umask os)
  end.

(** The file system a stage with [> path] as its first redirection leaves
    behind. *)
Definition after_output_stage (os : os_world) (pre : list string)
    (path : string) (m : gmap string file) : gmap string file :=
  let m1 := <[path := File (mode_after_open os path m) []]> m in
  if (open_ret os path output_flags <? 0)%Z then m
  else if (dup2_ret os (FileStream path output_flags) STDOUT_FILENO <? 0)%Z then m1
  else match pre with
       | [] => m1
       | prog :: _ =>
           if execvp_fails os prog then m1
           else <[path := File (mode_after_open os path m)
                               (program_stdout os pre m1)]> m
       end.

(** The action ends its turn of the loop without leaving the process. *)
Definition returns_to_loop (a : action) : Prop :=
  forall p : process, (a p).2 = Running.

(** The action does not end the process by [exit], [exec] or [return]. *)
Definition stays_in_loop (a : action) : Prop :=
  forall p : process, (a p).2 = Running \/ (a p).2 = Undefined.

(** ** Sample worlds *)

(** What the sample programs write: [hi], newline. *)
Definition sample_output : list byte := [x68; x69; x0a].

(** The [fork] results the orchestrating process sees, and the ones stage
    [k] sees. *)
Definition parent_forks (i : nat) : Z := (200 + Z.of_nat i)%Z.
Definition child_forks (k i : nat) : Z := if i =? k then 0%Z else parent_forks i.

(** A world where every call succeeds, seen from the shell: the child of an
    external command is process 100, the watchdog process 101. *)
Definition sample_world (cwd : option string) (input : read_result)
    (status : Z) (stage_forks : nat -> Z) : os_world :=
  OsWorld (fun _ => cwd) input (fun _ => None) [] (fun _ => 0%Z)
          100%Z 101%Z status (fun _ => 0%Z) stage_forks
          (fun _ target => target) (fun _ _ => 3%Z) (fun _ => false)
          18%Z (fun _ _ => sample_output).

Definition shell_world (line : string) (status : Z) : os_world :=
  sample_world (Some "/home/user") (ReadLine (line +:+ nl)) status parent_forks.

Definition stage_world (k : nat) : os_world :=
  sample_world (Some "/home/user") ReadEOF 0%Z (child_forks k).

Definition fresh_shell : process := initial_process ∅.

(** A file system in which [out.txt] exists, mode 0600, and holds [old]. *)
Definition stale_files : gmap string file :=
  {[ "out.txt" := File 384 [x6f; x6c; x64] ]}.

(** ** Vocabulary of the further statements *)

(** The tokens a malformed pipeline is recognised by: a pipe symbol at the
    head, or two pipe symbols in a row. *)
Definition malformed_pipeline (args : list string) : Prop :=
  head args = Some "|" \/ exists l1 l2, args = l1 ++ "|" :: "|" :: l2.

(** The token is one of the two redirection symbols. *)
Definition is_redirection_symbol (r : string) : Prop := r = ">" \/ r = "<".

(** The flags and the mode the launcher passes to [open] for the symbol. *)
Definition redirection_flags (r : string) : Z :=
  if String.eqb r ">" then output_flags else O_RDONLY.

Definition redirection_mode (r : string) : Z :=
  if String.eqb r ">" then output_mode else 0%Z.

Definition redirection_target (r : string) : Z :=
  if String.eqb r ">" then STDOUT_FILENO else STDIN_FILENO.

Definition is_exec_event (e : event) : bool :=
  match e with SysExecvp _ _ => true | _ => false end.

(** The only ways the launcher ends: it falls off its end, it calls
    [exit(1)], or the process image is replaced. *)
Definition launcher_end (c : control) : Prop :=
  c = Running \/ c = Exited 1 \/ exists prog argv, c = Execed prog argv.

(** A world given by what the two [fork] calls of [main] return, the status
    [waitpid] reports, what [pipe] and the [fork] calls of the orchestrator
    return, what every [open] returns and whether [execvp] fails. *)
Definition scenario (shell_fork watchdog_fork status : Z)
    (pipes : nat -> Z) (stage_forks : nat -> Z) (opened : Z)
    (exec_fails : bool) : os_world :=
  OsWorld (fun _ => Some "/home/user") ReadEOF (fun _ => None) [] (fun _ => 0%Z)
          shell_fork watchdog_fork status pipes stage_forks
          (fun _ target => target) (fun _ _ => opened) (fun _ => exec_fails)
          18%Z (fun _ _ => sample_output).

(** How a process forked for an external command can end. *)
Definition child_end (c : control) : Prop :=
  c = Exited 1 \/ (exists prog argv, c = Execed prog argv) \/ c = Undefined.

(** The action never calls [exit] with a status other than 1. *)
Definition exits_with_one (a : action) : Prop :=
  forall (p : process) (code : Z), (a p).2 = Exited code -> code = 1%Z.

(** The action is of the kind a built-in command is: it ends its turn of
    the loop, leaves the foreground slot and the pipe descriptors alone,
    and creates no pipe and no process. *)
Definition stays_in_shell (a : action) : Prop :=
  forall p : process,
    (a p).2 = Running /\
    foreground_process_id (a p).1 = foreground_process_id p /\
    exists evs, trace (a p).1 = trace p ++ evs /\
                Forall (fun e => is_spawn_event e = false) evs.

(** Every character of the string passes the test. *)
Fixpoint all_chars (f : ascii -> bool) (s : string) : bool :=
  match s with
  | EmptyString => true
  | String c s' => f c && all_chars f s'
  end.

(** The characters of the string that pass the test, in order. *)
Fixpoint keep_chars (f : ascii -> bool) (s : string) : string :=
  match s with
  | EmptyString => EmptyString
  | String c s' => if f c then String c (keep_chars f s') else keep_chars f s'
  end.

Definition not_delimiter (delimiters : string) (c : ascii) : bool :=
  negb (is_delimiter delimiters c).

(** A token as [strtok] returns them: not empty, no delimiter inside. *)
Definition proper_token (delimiters token : string) : Prop :=
  token <> EmptyString /\ all_chars (not_delimiter delimiters) token = true.

(** The strings of a list, one after the other. *)
Definition glue (l : list string) : string := foldr String.append EmptyString l.

(** The token under construction, or nothing. *)
Definition pending (cur : option (nat * string)) : string :=
  match cur with Some t => t.2 | None => EmptyString end.

(** * Properties *)

(** ** Sequencing and traces *)

Lemma and_then_running (a b : action) (p q : process) :
  a p = (q, Running) -> (a ;; b) p = b q.
Proof. intros H. unfold and_then. by rewrite H. Qed.

Lemma and_then_assoc (a b c : action) (p : process) :
  ((a ;; b) ;; c) p = (a ;; (b ;; c)) p.
Proof. unfold and_then. simpl. by destruct (a p) as [q []]. Qed.

Lemma and_then_stopped (a b : action) (p q : process) (c : control) :
  a p = (q, c) -> c <> Running -> (a ;; b) p = (q, c).
Proof. intros H Hc. unfold and_then. rewrite H. by destruct c. Qed.

Lemma and_then_ext (a b b' : action) (p : process) :
  (forall q, b q = b' q) -> (a ;; b) p = (a ;; b') p.
Proof. intros H. unfold and_then. destruct (a p) as [q []]; simpl; auto. Qed.

Lemma for_each_app {A : Type} (body : A -> action) (l1 l2 : list A) (p : process) :
  for_each body (l1 ++ l2) p = (for_each body l1 ;; for_each body l2) p.
Proof.
  revert p. induction l1 as [|x l1 IH]; intros p; simpl.
  - reflexivity.
  - rewrite and_then_assoc. apply and_then_ext. intros q. apply IH.
Qed.

Lemma add_events_nil (p : process) : add_events [] p = p.
Proof. destruct p. unfold add_events. simpl. by rewrite app_nil_r. Qed.

Lemma add_events_app (l1 l2 : list event) (p : process) :
  add_events l2 (add_events l1 p) = add_events (l1 ++ l2) p.
Proof. unfold add_events. simpl. by rewrite app_assoc. Qed.

Lemma log_add_events (e : event) (p : process) : log e p = add_events [e] p.
Proof. reflexivity. Qed.

Lemma for_each_emit {A : Type} (f : A -> event) (l : list A) (p : process) :
  for_each (fun x => emit (f x)) l p = (add_events (map f l) p, Running).
Proof.
  revert p. induction l as [|x l IH]; intros p; simpl.
  - unfold skip, finish. by rewrite add_events_nil.
  - unfold and_then, emit. simpl. rewrite IH, log_add_events, add_events_app. reflexivity.
Qed.

(** ** The splitter *)

Lemma in_bounds_lt (n k : nat) :
  n < MAX_ARGUMENTS -> k < MAX_ARGUMENTS -> in_bounds n k = true.
Proof.
  intros Hn Hk. unfold in_bounds.
  apply andb_true_intro; split; by apply Nat.ltb_lt.
Qed.

Lemma split_loop_no_pipe (args : list string) :
  forall (done : list (list string)) (cur : list string),
    "|" ∉ args ->
    length done + length cur + length args < MAX_ARGUMENTS ->
    split_loop args done cur = SplitOk (done ++ [cur ++ args]).
Proof.
  induction args as [|a args IH]; intros done cur Hno Hlen; simpl in *.
  - rewrite in_bounds_lt by lia. by rewrite app_nil_r.
  - destruct (String.eqb_spec a "|") as [->|Hne].
    + exfalso. apply Hno. by left.
    + rewrite in_bounds_lt by lia.
      rewrite IH.
      * by rewrite <- app_assoc.
      * intros Hin. apply Hno. by right.
      * rewrite length_app. simpl. lia.
Qed.

Lemma split_leading_pipe (rest : list string) :
  split_commands ("|" :: rest) = SplitInvalid.
Proof. reflexivity. Qed.

Lemma split_loop_double_pipe (l1 l2 : list string) :
  forall (done : list (list string)) (cur : list string),
    length done + length cur + length (l1 ++ "|" :: "|" :: l2) < MAX_ARGUMENTS ->
    split_loop (l1 ++ "|" :: "|" :: l2) done cur = SplitInvalid.
Proof.
  induction l1 as [|a l1 IH]; intros done cur Hlen; simpl in *.
  - destruct (length cur =? 0); [reflexivity|].
    rewrite in_bounds_lt by lia. reflexivity.
  - destruct (String.eqb a "|").
    + destruct (length cur =? 0); [reflexivity|].
      rewrite in_bounds_lt by lia. apply IH.
      rewrite length_app. simpl. lia.
    + rewrite in_bounds_lt by lia. apply IH.
      rewrite length_app. simpl. lia.
Qed.

Lemma invalid_pipeline_rejected (os : os_world) (args : list string) (p : process) :
  split_commands args = SplitInvalid ->
  execute_command_with_pipes_and_redirection os args p
  = (log (Stdout ("Invalid pipe command" +:+ nl)) p, Returned).
Proof.
  intros H. unfold execute_command_with_pipes_and_redirection. by rewrite H.
Qed.

(** A pipeline that starts with a pipe symbol or holds two in a row is
    turned down before any [pipe] or [fork]. *)
Lemma leading_or_double_pipe_rejected (os : os_world) (args : list string)
    (p : process) :
  length args < MAX_ARGUMENTS ->
  head args = Some "|" \/ (exists l1 l2, args = l1 ++ "|" :: "|" :: l2) ->
  execute_command_with_pipes_and_redirection os args p
  = (log (Stdout ("Invalid pipe command" +:+ nl)) p, Returned).
Proof.
  intros Hlen H. apply invalid_pipeline_rejected.
  destruct H as [H|(l1 & l2 & ->)].
  - destruct args as [|a rest]; simplify_eq/=. reflexivity.
  - apply split_loop_double_pipe. simpl. lia.
Qed.

Lemma join_stages_snoc (done : list (list string)) (cur : list string) :
  join_stages (done ++ [cur]) = closed_rows done ++ cur.
Proof.
  unfold closed_rows. induction done as [|s done IH]; simpl; [done|].
  destruct (done ++ [cur]) as [|s' rest] eqn:E; [by destruct done|].
  by rewrite IH, <- !app_assoc.
Qed.

(** What the splitter returns is a partition of its input at the pipe
    symbols: joined again it is the input, and there is one stage more than
    there are pipe symbols. *)
Lemma split_loop_partition (args : list string) :
  forall (done : list (list string)) (cur : list string)
         (stages : list (list string)),
    split_loop args done cur = SplitOk stages ->
    join_stages stages = closed_rows done ++ cur ++ args /\
    length stages = length done + 1 + count_pipes args.
Proof.
  induction args as [|a args IH]; intros done cur stages; simpl.
  - destruct (in_bounds (length done) (length cur)); [|done].
    intros ?; simplify_eq. rewrite join_stages_snoc, app_nil_r, length_app.
    simpl. unfold count_pipes. simpl. split; [done|lia].
  - unfold count_pipes. simpl. destruct (String.eqb_spec a "|") as [->|Hne].
    + destruct (length cur =? 0); [done|].
      destruct (in_bounds (length done) (length cur)); [|done].
      intros H. apply IH in H as [Hjoin Hlen]. split.
      * rewrite Hjoin. unfold closed_rows. rewrite bind_app, bind_singleton.
        simpl. by rewrite <- !app_assoc.
      * rewrite Hlen, length_app. unfold count_pipes. simpl. lia.
    + destruct (in_bounds (length done) (length cur)); [|done].
      intros H. apply IH in H as [Hjoin Hlen]. split.
      * rewrite Hjoin. by rewrite <- !app_assoc.
      * exact Hlen.
Qed.

Lemma split_commands_partition (args : list string) (stages : list (list string)) :
  split_commands args = SplitOk stages ->
  join_stages stages = args /\ length stages = count_pipes args + 1.
Proof.
  intros H. apply split_loop_partition in H as [Hjoin Hlen]. simpl in *.
  split; [done|lia].
Qed.

(** Only the last stage can be empty. *)
Lemma split_loop_nonempty (args : list string) :
  forall (done : list (list string)) (cur : list string)
         (stages : list (list string)),
    Forall (fun s => s <> []) done ->
    split_loop args done cur = SplitOk stages ->
    exists front final, stages = front ++ [final] /\
                        Forall (fun s => s <> []) front.
Proof.
  induction args as [|a args IH]; intros done cur stages Hdone; simpl.
  - destruct (in_bounds (length done) (length cur)); [|done].
    intros ?; simplify_eq. eauto.
  - destruct (String.eqb a "|").
    + destruct cur as [|c cur]; [done|]. simpl.
      destruct (in_bounds (length done) (S (length cur))); [|done].
      apply IH. apply Forall_app. split; [done|]. by repeat constructor.
    + destruct (in_bounds (length done) (length cur)); [|done].
      by apply IH.
Qed.

Lemma split_example :
  split_commands ["echo"; "hello"; "|"; "tr"; "a-z"; "A-Z"]
  = SplitOk [["echo"; "hello"]; ["tr"; "a-z"; "A-Z"]].
Proof. reflexivity. Qed.

(** ** The launcher *)

Lemma find_redirection_cons (a b : string) (rest : list string) (i : nat) :
  find_redirection (a :: b :: rest) i
  = if String.eqb a ">" then Some (RedirectOutput i b)
    else if String.eqb a "<" then Some (RedirectInput i b)
    else find_redirection (b :: rest) (S i).
Proof. reflexivity. Qed.

Lemma find_redirection_first (pre : list string) (r path : string)
    (post : list string) :
  forall i : nat,
    ">" ∉ pre -> "<" ∉ pre ->
    find_redirection (pre ++ r :: path :: post) i
    = if String.eqb r ">" then Some (RedirectOutput (i + length pre) path)
      else if String.eqb r "<" then Some (RedirectInput (i + length pre) path)
      else find_redirection (path :: post) (S (i + length pre)).
Proof.
  induction pre as [|a pre IH]; intros i Hout Hin.
  - simpl app. rewrite find_redirection_cons. simpl. by rewrite Nat.add_0_r.
  - rewrite <- app_comm_cons.
    destruct (pre ++ r :: path :: post) as [|b rest] eqn:E.
    { by destruct pre. }
    rewrite find_redirection_cons.
    destruct (String.eqb_spec a ">") as [->|_]; [by destruct Hout; left|].
    destruct (String.eqb_spec a "<") as [->|_]; [by destruct Hin; left|].
    rewrite IH.
    + simpl length. by replace (S i + length pre) with (i + S (length pre)) by lia.
    + intros H. apply Hout. by right.
    + intros H. apply Hin. by right.
Qed.

Lemma find_redirection_last (pre : list string) (r : string) :
  forall i : nat,
    ">" ∉ pre -> "<" ∉ pre -> find_redirection (pre ++ [r]) i = None.
Proof.
  induction pre as [|a pre IH]; intros i Hout Hin.
  - reflexivity.
  - rewrite <- app_comm_cons.
    destruct (pre ++ [r]) as [|b rest] eqn:E.
    { by destruct pre. }
    rewrite find_redirection_cons.
    destruct (String.eqb_spec a ">") as [->|_]; [by destruct Hout; left|].
    destruct (String.eqb_spec a "<") as [->|_]; [by destruct Hin; left|].
    apply IH.
    + intros H. apply Hout. by right.
    + intros H. apply Hin. by right.
Qed.

Lemma quiet_finish (c : control) : quiet (finish c).
Proof. intros p. split; [done|]. exists []. by rewrite app_nil_r. Qed.

Lemma quiet_skip : quiet skip.
Proof. apply quiet_finish. Qed.

Lemma quiet_emit (e : event) : is_spawn_event e = false -> quiet (emit e).
Proof. intros He p. split; [done|]. exists [e]. split; [done|]. by constructor. Qed.

Lemma quiet_and_then (a b : action) : quiet a -> quiet b -> quiet (a ;; b).
Proof.
  intros Ha Hb p. unfold and_then.
  destruct (Ha p) as (Hfd & evs & Htr & Hev).
  destruct (a p) as [q c]; simpl in *.
  assert (Hq : pipe_fds q = pipe_fds p /\
               exists evs, trace q = trace p ++ evs /\
                           Forall (fun e => is_spawn_event e = false) evs) by eauto.
  destruct c; try exact Hq.
  destruct (Hb q) as (Hfd' & evs' & Htr' & Hev').
  split; [congruence|].
  exists (evs ++ evs'). split.
  - by rewrite Htr', Htr, app_assoc.
  - by apply Forall_app.
Qed.

Lemma quiet_call (a : action) : quiet a -> quiet (call a).
Proof.
  intros Ha p. unfold call. specialize (Ha p).
  destruct (a p) as [q []]; simpl in *; exact Ha.
Qed.

Lemma quiet_if (c : bool) (a b : action) :
  quiet a -> quiet b -> quiet (if c then a else b).
Proof. by destruct c. Qed.

Lemma quiet_sys_open (os : os_world) (path : string) (flags mode : Z) :
  quiet (sys_open os path flags mode).
Proof.
  intros p. unfold sys_open.
  destruct (open_ret os path flags <? 0)%Z; simpl;
    (split; [done|]); eexists; (split; [reflexivity|]); by constructor.
Qed.

Lemma quiet_sys_dup2 (os : os_world) (src : stream) (target : Z) :
  quiet (sys_dup2 os src target).
Proof.
  intros p. unfold sys_dup2, set_std.
  destruct (dup2_ret os src target <? 0)%Z; simpl.
  - split; [done|]. eexists. split; [reflexivity|]. by constructor.
  - destruct (target =? STDIN_FILENO)%Z; [|destruct (target =? STDOUT_FILENO)%Z];
      simpl; (split; [done|]); eexists; (split; [reflexivity|]); by constructor.
Qed.

Create HintDb quiet.

#[local] Hint Resolve quiet_finish quiet_skip quiet_and_then quiet_call
  quiet_sys_open quiet_sys_dup2 : quiet.

#[local] Hint Extern 1 (quiet (if _ then _ else _)) => apply quiet_if : quiet.

#[local] Hint Extern 1 (quiet (emit _)) => apply quiet_emit; reflexivity : quiet.

Lemma quiet_exec_stage (os : os_world) (argv : list string) :
  quiet (exec_stage os argv).
Proof. destruct argv as [|prog argv]; simpl; auto 10 with quiet. Qed.

Lemma quiet_execute_single_command (os : os_world) (args : list string) :
  quiet (execute_single_command os args).
Proof.
  pose proof (quiet_exec_stage os) as Hexec.
  unfold execute_single_command, redirect_output, redirect_input.
  destruct (find_redirection args 0) as [[i path|i path]|];
    auto 12 with quiet.
Qed.

(** ** Loops over the pipe table *)

Lemma closes_nil (p : process) : closes [] p = p.
Proof.
  destruct p as [a s i o m t]. unfold closes; simpl. rewrite app_nil_r.
  f_equal. set_solver.
Qed.

Lemma closes_app (l1 l2 : list (nat * nat)) (p : process) :
  closes l2 (closes l1 p) = closes (l1 ++ l2) p.
Proof.
  unfold closes; simpl. rewrite map_app, app_assoc. f_equal.
  rewrite list_to_set_app_L. set_solver.
Qed.

Lemma sys_close_pipe_closes (j e : nat) (p : process) :
  sys_close_pipe j e p = (closes [(j, e)] p, Running).
Proof.
  unfold sys_close_pipe, closes, log, set_pipe_fds; simpl.
  do 2 f_equal. set_solver.
Qed.

Lemma close_both_closes (j : nat) (p : process) :
  close_both j p = (closes (both_ends j) p, Running).
Proof.
  unfold close_both.
  rewrite (and_then_running _ _ _ _ (sys_close_pipe_closes j 0 p)).
  by rewrite sys_close_pipe_closes, closes_app.
Qed.

Lemma for_each_closes (body : nat -> action) (ends : nat -> list (nat * nat))
    (l : list nat) :
  (forall j p, body j p = (closes (ends j) p, Running)) ->
  forall p, for_each body l p = (closes (l ≫= ends) p, Running).
Proof.
  intros Hbody. induction l as [|j l IH]; intros p; simpl.
  - unfold skip, finish. by rewrite closes_nil.
  - rewrite (and_then_running _ _ _ _ (Hbody j p)).
    by rewrite IH, closes_app.
Qed.

Lemma create_pipes_ok (os : os_world) (l : list nat) :
  forall p : process,
    (forall j, j ∈ l -> (0 <= pipe_ret os j)%Z) ->
    for_each (create_pipe os) l p
    = (Process (foreground_process_id p)
               (pipe_fds p ∪ list_to_set (l ≫= both_ends))
               (std_in p) (std_out p) (fs p)
               (trace p ++ map (fun j => SysPipe j (pipe_ret os j)) l),
       Running).
Proof.
  induction l as [|j l IH]; intros p Hok; simpl.
  - unfold skip, finish. destruct p; simpl. rewrite app_nil_r.
    do 2 f_equal. set_solver.
  - assert (Hj : (pipe_ret os j <? 0)%Z = false).
    { apply Z.ltb_ge, Hok. by left. }
    assert (Hstep : create_pipe os j p
                    = (log (SysPipe j (pipe_ret os j))
                           (set_pipe_fds (pipe_fds p ∪ {[ (j, 0); (j, 1) ]}) p),
                       Running)).
    { unfold create_pipe, and_then, sys_pipe. rewrite Hj. reflexivity. }
    rewrite (and_then_running _ _ _ _ Hstep), IH.
    + simpl. rewrite <- app_assoc. do 2 f_equal. set_solver.
    + intros j' Hj'. apply Hok. by right.
Qed.

Lemma spawn_stage_parent (os : os_world) (stages : list (list string))
    (n i : nat) (p : process) :
  (0 < fork_ret os i)%Z ->
  spawn_stage os stages n i p = (add_events [SysFork (fork_ret os i)] p, Running).
Proof.
  intros Hpos. unfold spawn_stage, and_then, emit; simpl.
  assert ((fork_ret os i =? 0)%Z = false) as -> by (apply Z.eqb_neq; lia).
  assert ((fork_ret os i <? 0)%Z = false) as -> by (apply Z.ltb_ge; lia).
  reflexivity.
Qed.

Lemma spawn_stages_parent (os : os_world) (stages : list (list string))
    (n : nat) (l : list nat) :
  forall p : process,
    (forall i, i ∈ l -> (0 < fork_ret os i)%Z) ->
    for_each (spawn_stage os stages n) l p
    = (add_events (map (fun i => SysFork (fork_ret os i)) l) p, Running).
Proof.
  induction l as [|i l IH]; intros p Hok; simpl.
  - unfold skip, finish. by rewrite add_events_nil.
  - rewrite (and_then_running _ _ _ _ (spawn_stage_parent os stages n i p
                                          (Hok i ltac:(by left)))).
    rewrite IH, add_events_app; [done|].
    intros i' Hi'. apply Hok. by right.
Qed.

(** ** The fast path *)

(** C7: for a token sequence without pipe symbol (and within the capacity
    of the argument array) the splitter yields the one stage that is the
    sequence itself, and the orchestrator does nothing but call the
    launcher on it and return: no [pipe], no [fork], the table of pipe
    descriptors untouched. *)
Theorem C7_no_pipe_single_stage (os : os_world) (command_arguments : list string)
    (p : process) :
  "|" ∉ command_arguments ->
  length command_arguments < MAX_ARGUMENTS ->
  split_commands command_arguments = SplitOk [command_arguments] /\
  execute_command_with_pipes_and_redirection os command_arguments p
  = (call (execute_single_command os command_arguments) ;; finish Returned) p /\
  pipe_fds (execute_command_with_pipes_and_redirection os command_arguments p).1
  = pipe_fds p /\
  exists evs,
    trace (execute_command_with_pipes_and_redirection os command_arguments p).1
    = trace p ++ evs /\
    Forall (fun e => is_spawn_event e = false) evs.
Proof.
  intros Hno Hlen.
  assert (Hsplit : split_commands command_arguments = SplitOk [command_arguments]).
  { unfold split_commands. rewrite split_loop_no_pipe; [done|done|simpl; lia]. }
  assert (Hrun : execute_command_with_pipes_and_redirection os command_arguments p
                 = (call (execute_single_command os command_arguments) ;;
                    finish Returned) p).
  { unfold execute_command_with_pipes_and_redirection. by rewrite Hsplit. }
  split; [exact Hsplit|]. split; [exact Hrun|]. rewrite Hrun.
  apply quiet_and_then; [|apply quiet_finish].
  apply quiet_call, quiet_execute_single_command.
Qed.

(** ** The orchestrating process *)

Lemma count_events_app (f : event -> bool) (l1 l2 : list event) :
  count_events f (l1 ++ l2) = count_events f l1 + count_events f l2.
Proof. unfold count_events. by rewrite List.filter_app, length_app. Qed.

Lemma count_events_all (f : event -> bool) (l : list event) :
  Forall (fun e => f e = true) l -> count_events f l = length l.
Proof.
  unfold count_events. induction 1 as [|e l He _ IH]; simpl; [done|].
  rewrite He. simpl. by rewrite IH.
Qed.

Lemma count_events_none (f : event -> bool) (l : list event) :
  Forall (fun e => f e = false) l -> count_events f l = 0.
Proof.
  unfold count_events. induction 1 as [|e l He _ IH]; simpl; [done|].
  by rewrite He.
Qed.

Lemma pipeline_trace_pipes (os : os_world) (N : nat) :
  count_events is_pipe_event (pipeline_trace os N) = N - 1.
Proof.
  unfold pipeline_trace. rewrite !count_events_app.
  rewrite count_events_all by (apply Forall_map, Forall_forall; done).
  rewrite !count_events_none by (apply Forall_map, Forall_forall; done).
  rewrite length_map, length_seq. lia.
Qed.

Lemma pipeline_trace_forks (os : os_world) (N : nat) :
  count_events is_fork_event (pipeline_trace os N) = N.
Proof.
  unfold pipeline_trace. rewrite !count_events_app.
  rewrite (count_events_all _ (map (fun i => SysFork _) _))
    by (apply Forall_map, Forall_forall; done).
  rewrite !count_events_none by (apply Forall_map, Forall_forall; done).
  rewrite length_map, length_seq. lia.
Qed.

Section Pipeline.

Variables (os : os_world) (stages : list (list string)) (n : nat).

Hypothesis pipes_succeed : forall j, j < n -> (0 <= pipe_ret os j)%Z.

Lemma pipes_created (p : process) :
  for_each (create_pipe os) (seq 0 n) p
  = (Process (foreground_process_id p)
             (pipe_fds p ∪ list_to_set (seq 0 n ≫= both_ends))
             (std_in p) (std_out p) (fs p)
             (trace p ++ map (fun j => SysPipe j (pipe_ret os j)) (seq 0 n)),
     Running).
Proof.
  apply create_pipes_ok. intros j Hj. apply pipes_succeed.
  apply elem_of_seq in Hj. lia.
Qed.

(** The parent's run of a pipeline of [n + 1] stages when every [pipe] and
    every [fork] succeeds. *)
Lemma run_pipeline_parent (p : process) :
  (forall i, i < n + 1 -> (0 < fork_ret os i)%Z) ->
  run_pipeline os stages n p
  = (Process (foreground_process_id p)
             ((pipe_fds p ∪ list_to_set (seq 0 n ≫= both_ends))
                ∖ list_to_set (seq 0 n ≫= both_ends))
             (std_in p) (std_out p) (fs p)
             (trace p ++ pipeline_trace os (n + 1)),
     Running).
Proof.
  intros Hfork. unfold run_pipeline.
  rewrite (and_then_running _ _ _ _ (pipes_created p)).
  erewrite and_then_running; cycle 1.
  { apply spawn_stages_parent. intros i Hi. apply Hfork.
    apply elem_of_seq in Hi. lia. }
  erewrite and_then_running; cycle 1.
  { apply (for_each_closes close_both both_ends), close_both_closes. }
  rewrite for_each_emit.
  unfold pipeline_trace, add_events, closes; simpl.
  replace (n + 1 - 1) with n by lia.
  by rewrite <- !app_assoc.
Qed.

End Pipeline.

(** C2: a pipeline of N >= 2 stages, every [pipe] and [fork] succeeding:
    the orchestrating process makes exactly N-1 [pipe] calls, then exactly N
    [fork] calls, then closes both descriptors of every pipe, and only then
    waits for the N children; it reaches the end of the function holding no
    pipe descriptor. *)
Theorem C2_pipeline_plumbing (os : os_world) (command_arguments : list string)
    (stages : list (list string)) (p : process) :
  split_commands command_arguments = SplitOk stages ->
  2 <= length stages ->
  (forall j, j < length stages - 1 -> (0 <= pipe_ret os j)%Z) ->
  (forall i, i < length stages -> (0 < fork_ret os i)%Z) ->
  pipe_fds p = ∅ ->
  let N := length stages in
  let r := execute_command_with_pipes_and_redirection os command_arguments p in
  r.2 = Running /\
  trace r.1
  = trace p
    ++ map (fun j => SysPipe j (pipe_ret os j)) (seq 0 (N - 1))
    ++ map (fun i => SysFork (fork_ret os i)) (seq 0 N)
    ++ map (fun d => SysClosePipe d.1 d.2) (seq 0 (N - 1) ≫= both_ends)
    ++ map (fun i => SysWaitpid (fork_ret os i)) (seq 0 N) /\
  count_events is_pipe_event (drop (length (trace p)) (trace r.1)) = N - 1 /\
  count_events is_fork_event (drop (length (trace p)) (trace r.1)) = N /\
  pipe_fds r.1 = ∅.
Proof.
  intros Hsplit HN Hpipe Hfork Hfds N r.
  assert (Hr : r = (Process (foreground_process_id p)
                            ((pipe_fds p ∪ list_to_set (seq 0 (N - 1) ≫= both_ends))
                               ∖ list_to_set (seq 0 (N - 1) ≫= both_ends))
                            (std_in p) (std_out p) (fs p)
                            (trace p ++ pipeline_trace os N),
                    Running)).
  { subst r. unfold execute_command_with_pipes_and_redirection.
    rewrite Hsplit. fold N.
    assert ((N - 1 =? 0) = false) as -> by (apply Nat.eqb_neq; lia).
    rewrite run_pipeline_parent.
    - by replace (N - 1 + 1) with N by lia.
    - exact Hpipe.
    - intros i Hi. apply Hfork. lia. }
  rewrite Hr; simpl.
  split; [done|]. split; [done|].
  rewrite drop_app_length.
  split; [apply pipeline_trace_pipes|]. split; [apply pipeline_trace_forks|].
  rewrite Hfds. set_solver.
Qed.

(** ** A stage child *)

Lemma and_then_passes (a b : action) (p : process) :
  (a p).2 <> Running -> (a ;; b) p = a p.
Proof. unfold and_then. destruct (a p) as [q []]; simpl; congruence. Qed.

Lemma and_then_never_running (a b : action) (p : process) :
  (forall q, (b q).2 <> Running) -> ((a ;; b) p).2 <> Running.
Proof.
  intros Hb. unfold and_then. destruct (a p) as [q []]; simpl; by auto.
Qed.

Lemma dup2_or_exit_ok (os : os_world) (src : stream) (target : Z)
    (rest : action) (p : process) :
  (0 <= dup2_ret os src target)%Z ->
  dup2_or_exit os src target rest p = rest (dup_to os src target p).
Proof.
  intros Hok. unfold dup2_or_exit, and_then, sys_dup2.
  assert ((dup2_ret os src target <? 0)%Z = false) as -> by (by apply Z.ltb_ge).
  reflexivity.
Qed.

Lemma wire_child_ok (os : os_world) (n k : nat) (p : process) :
  (forall j e t, t = STDIN_FILENO \/ t = STDOUT_FILENO ->
                 (0 <= dup2_ret os (PipeStream j e) t)%Z) ->
  wire_child os n k p = (closes (closed_by_child n k) (wired os n k p), Running).
Proof.
  intros Hdup. unfold wire_child, closed_by_child, wired.
  destruct (k =? 0).
  - rewrite dup2_or_exit_ok by (apply Hdup; auto).
    rewrite (and_then_running _ _ _ _ (sys_close_pipe_closes 0 0 _)).
    rewrite (for_each_closes close_both both_ends) by apply close_both_closes.
    by rewrite closes_app.
  - destruct (k =? n).
    + rewrite dup2_or_exit_ok by (apply Hdup; auto).
      rewrite (and_then_running _ _ _ _ (sys_close_pipe_closes _ _ _)).
      rewrite (for_each_closes close_both both_ends) by apply close_both_closes.
      by rewrite closes_app.
    + rewrite !dup2_or_exit_ok by (apply Hdup; auto).
      apply for_each_closes. intros j q.
      destruct (j =? k - 1); [apply sys_close_pipe_closes|].
      destruct (j =? k); [apply sys_close_pipe_closes|apply close_both_closes].
Qed.

Lemma elem_of_both_ends (a b : nat) (l : list nat) :
  (a, b) ∈ l ≫= both_ends <-> a ∈ l /\ (b = 0 \/ b = 1).
Proof.
  unfold both_ends. rewrite list_elem_of_bind. split.
  - intros (j & Hj & Hl). set_unfold. naive_solver.
  - intros [Hl Hb]. exists a. set_unfold. naive_solver.
Qed.

Lemma kept_after_closing (n k : nat) :
  1 <= n -> k <= n ->
  (list_to_set (seq 0 n ≫= both_ends) : gset (nat * nat))
    ∖ list_to_set (closed_by_child n k)
  = kept_fds n k.
Proof.
  intros Hn Hk. apply set_eq. intros [a b].
  rewrite elem_of_difference, !elem_of_list_to_set, elem_of_both_ends, elem_of_seq.
  unfold closed_by_child, kept_fds.
  destruct (Nat.eqb_spec k 0) as [->|Hk0].
  - rewrite elem_of_cons, elem_of_both_ends, elem_of_seq. set_unfold.
    split; [intros [[? [-> | ->]] Hno]|intros ?; simplify_eq].
    + destruct (decide (a = 0)) as [->|]; [by destruct Hno; left|].
      destruct Hno. right. split; [lia|by left].
    + destruct (decide (a = 0)) as [->|]; [done|].
      destruct Hno. right. split; [lia|by right].
    + split; [split; [lia|by right]|]. intros [?|[? _]]; [simplify_eq|lia].
  - destruct (Nat.eqb_spec k n) as [->|Hkn].
    + rewrite elem_of_cons, elem_of_both_ends, elem_of_seq. set_unfold.
      split; [intros [[? [-> | ->]] Hno]|intros ?; simplify_eq].
      * destruct (decide (a = n - 1)) as [->|]; [done|].
        destruct Hno. right. split; [lia|by left].
      * destruct (decide (a = n - 1)) as [->|]; [by destruct Hno; left|].
        destruct Hno. right. split; [lia|by right].
      * split; [split; [lia|by left]|]. intros [?|[? _]]; [simplify_eq|lia].
    + rewrite list_elem_of_bind. set_unfold. split.
      * intros [[? Hb] Hno].
        destruct (decide (a = k - 1)) as [->|Hne1].
        { destruct Hb as [-> | ->]; [by left|].
          destruct Hno. exists (k - 1). rewrite Nat.eqb_refl. set_unfold.
          split; [by left|lia]. }
        destruct (decide (a = k)) as [->|Hne2].
        { destruct Hb as [-> | ->]; [|by right].
          destruct Hno. exists k.
          destruct (Nat.eqb_spec k (k - 1)); [lia|]. rewrite Nat.eqb_refl.
          set_unfold. split; [by left|lia]. }
        destruct Hno. exists a.
        destruct (Nat.eqb_spec a (k - 1)); [done|].
        destruct (Nat.eqb_spec a k); [done|].
        unfold both_ends. set_unfold. split; [|lia].
        destruct Hb as [-> | ->]; auto.
      * intros [?|?]; simplify_eq.
        { split; [split; [lia|by left]|]. intros (j & Hj & _).
          destruct (Nat.eqb_spec j (k - 1)); [set_unfold; naive_solver lia|].
          destruct (Nat.eqb_spec j k); [set_unfold; naive_solver lia|].
          unfold both_ends in Hj. set_unfold. naive_solver lia. }
        { split; [split; [lia|by right]|]. intros (j & Hj & _).
          destruct (Nat.eqb_spec j (k - 1)); [set_unfold; naive_solver lia|].
          destruct (Nat.eqb_spec j k); [set_unfold; naive_solver lia|].
          unfold both_ends in Hj. set_unfold. naive_solver lia. }
Qed.

Lemma stage_child_never_running (os : os_world) (stages : list (list string))
    (n k : nat) (q : process) :
  (stage_child os stages n k q).2 <> Running.
Proof.
  unfold stage_child. apply and_then_never_running. intros q1.
  apply and_then_never_running. intros q2. done.
Qed.

Lemma spawn_stage_child (os : os_world) (stages : list (list string))
    (n k : nat) (p : process) :
  fork_ret os k = 0%Z ->
  spawn_stage os stages n k p = stage_child os stages n k (log (SysFork 0) p).
Proof.
  intros Hk. unfold spawn_stage. rewrite Hk. simpl.
  by erewrite and_then_running by reflexivity.
Qed.

Section StageChild.

Variables (os : os_world) (stages : list (list string)) (n k : nat).

Hypothesis stage_in_range : k <= n.

Hypothesis pipes_succeed : forall j, j < n -> (0 <= pipe_ret os j)%Z.

Hypothesis earlier_forks : forall i, i < k -> (0 < fork_ret os i)%Z.

Hypothesis in_child : fork_ret os k = 0%Z.

Lemma spawn_loop_child (p : process) :
  for_each (spawn_stage os stages n) (seq 0 (n + 1)) p
  = stage_child os stages n k
      (log (SysFork 0)
           (add_events (map (fun i => SysFork (fork_ret os i)) (seq 0 k)) p)).
Proof.
  replace (n + 1) with (k + S (n - k)) by lia.
  rewrite seq_app, for_each_app. simpl.
  erewrite and_then_running; cycle 1.
  { apply spawn_stages_parent. intros i Hi. apply earlier_forks.
    apply elem_of_seq in Hi. lia. }
  rewrite and_then_passes.
  - by apply spawn_stage_child.
  - rewrite spawn_stage_child by done. apply stage_child_never_running.
Qed.

(** Stage [k] from the start of the pipeline machinery to its own branch of
    the spawning loop. *)
Lemma run_pipeline_child (p : process) :
  run_pipeline os stages n p
  = stage_child os stages n k
      (Process (foreground_process_id p)
               (pipe_fds p ∪ list_to_set (seq 0 n ≫= both_ends))
               (std_in p) (std_out p) (fs p)
               (trace p ++ map (fun j => SysPipe j (pipe_ret os j)) (seq 0 n)
                        ++ map (fun i => SysFork (fork_ret os i)) (seq 0 k)
                        ++ [SysFork 0])).
Proof.
  unfold run_pipeline.
  rewrite (and_then_running _ _ _ _ (pipes_created os n pipes_succeed p)).
  rewrite and_then_passes.
  - rewrite spawn_loop_child. unfold log, add_events; simpl.
    by rewrite <- !app_assoc.
  - rewrite spawn_loop_child. apply stage_child_never_running.
Qed.

End StageChild.

Lemma wired_streams (os : os_world) (n k : nat) (p : process) :
  1 <= n ->
  std_in (wired os n k p) = (if k =? 0 then std_in p else PipeStream (k - 1) 0) /\
  std_out (wired os n k p) = (if k =? n then std_out p else PipeStream k 1) /\
  pipe_fds (wired os n k p) = pipe_fds p.
Proof.
  intros Hn. unfold wired.
  destruct (Nat.eqb_spec k 0) as [->|Hk0].
  - assert ((0 =? n) = false) as -> by (apply Nat.eqb_neq; lia). done.
  - destruct (Nat.eqb_spec k n) as [->|Hkn]; done.
Qed.

(** C6, as the code has it: stage [k] of a pipeline of N >= 2 stages reaches
    the launcher with its standard streams wired to the neighbouring pipes
    and with every pipe descriptor closed except the ones it has just
    duplicated, which stay open next to their copies: the write end of
    pipe 0 in the first stage, the read end of the last pipe in the last
    stage, both wired ends in a middle stage. *)
Theorem C6_child_keeps_wired_descriptors (os : os_world)
    (command_arguments : list string) (stages : list (list string))
    (k : nat) (p : process) :
  split_commands command_arguments = SplitOk stages ->
  2 <= length stages ->
  k < length stages ->
  (forall j, j < length stages - 1 -> (0 <= pipe_ret os j)%Z) ->
  (forall i, i < k -> (0 < fork_ret os i)%Z) ->
  fork_ret os k = 0%Z ->
  (forall j e t, t = STDIN_FILENO \/ t = STDOUT_FILENO ->
                 (0 <= dup2_ret os (PipeStream j e) t)%Z) ->
  pipe_fds p = ∅ ->
  let n := length stages - 1 in
  exists q : process,
    execute_command_with_pipes_and_redirection os command_arguments p
    = (call (execute_single_command os (nth k stages [])) ;; finish (Exited 1)) q /\
    pipe_fds q = kept_fds n k /\
    std_in q = (if k =? 0 then std_in p else PipeStream (k - 1) 0) /\
    std_out q = (if k =? n then std_out p else PipeStream k 1) /\
    pipe_fds (execute_command_with_pipes_and_redirection os command_arguments p).1
    = kept_fds n k.
Proof.
  intros Hsplit HN Hk Hpipe Hfork Hzero Hdup Hfds n.
  set (q0 := Process (foreground_process_id p)
               (pipe_fds p ∪ list_to_set (seq 0 n ≫= both_ends))
               (std_in p) (std_out p) (fs p)
               (trace p ++ map (fun j => SysPipe j (pipe_ret os j)) (seq 0 n)
                        ++ map (fun i => SysFork (fork_ret os i)) (seq 0 k)
                        ++ [SysFork 0])).
  set (q := closes (closed_by_child n k) (wired os n k q0)).
  assert (Hrun : execute_command_with_pipes_and_redirection os command_arguments p
                 = (call (execute_single_command os (nth k stages [])) ;;
                    finish (Exited 1)) q).
  { unfold execute_command_with_pipes_and_redirection.
    rewrite Hsplit. fold n.
    assert ((n =? 0) = false) as -> by (apply Nat.eqb_neq; lia).
    rewrite (run_pipeline_child os stages n k) by (done || lia).
    unfold stage_child. fold q0.
    by rewrite (and_then_running _ _ _ _ (wire_child_ok os n k q0 Hdup)). }
  destruct (wired_streams os n k q0 ltac:(lia)) as (Hin & Hout & Hsame).
  assert (Hq : pipe_fds q = kept_fds n k).
  { unfold q, closes; simpl. rewrite Hsame. unfold q0; simpl.
    rewrite Hfds, (left_id_L ∅ (∪)).
    apply kept_after_closing; lia. }
  exists q. split; [exact Hrun|]. split; [exact Hq|].
  split; [exact Hin|]. split; [exact Hout|].
  rewrite Hrun, <- Hq.
  apply (quiet_and_then _ _ (quiet_call _ (quiet_execute_single_command os _))
                          (quiet_finish _)).
Qed.

(** ** Redirection *)

(** The launcher on a stage whose first redirection symbol has a token
    after it: that one redirection, then the program on the tokens before
    the symbol. *)
Lemma launcher_with_redirection (os : os_world) (pre : list string)
    (r path : string) (post : list string) (p : process) :
  r = ">" \/ r = "<" -> ">" ∉ pre -> "<" ∉ pre ->
  execute_single_command os (pre ++ r :: path :: post) p
  = (redirect os r path ;; exec_stage os pre) p.
Proof.
  intros Hr Hout Hin. unfold execute_single_command, redirect.
  rewrite find_redirection_first by done. simpl.
  assert (Htake : take (length pre) (pre ++ r :: path :: post) = pre)
    by (by rewrite take_app_length).
  destruct Hr as [-> | ->]; simpl; by rewrite Htake.
Qed.

(** C4, as the code has it: in a stage whose first redirection symbol is
    followed by another token, that token is the file of the only
    redirection the launcher performs (one [open], whatever comes after),
    and a program that gets executed receives the tokens before the symbol
    and nothing else, with the stream of that one redirection replaced and
    the other stream untouched. *)
Theorem C4_first_redirection_wins (os : os_world) (pre : list string)
    (r path : string) (post : list string) (p : process) :
  r = ">" \/ r = "<" -> ">" ∉ pre -> "<" ∉ pre ->
  let res := execute_single_command os (pre ++ r :: path :: post) p in
  res = (redirect os r path ;; exec_stage os pre) p /\
  List.filter is_open_event (drop (length (trace p)) (trace res.1))
  = [SysOpen path (if String.eqb r ">" then output_flags else O_RDONLY)
             (if String.eqb r ">" then output_mode else 0%Z)
             (open_ret os path (if String.eqb r ">" then output_flags else O_RDONLY))] /\
  forall prog argv,
    res.2 = Execed prog argv ->
    argv = pre /\
    (r = ">" -> std_out res.1 = FileStream path output_flags /\
                std_in res.1 = std_in p) /\
    (r = "<" -> std_in res.1 = FileStream path O_RDONLY /\
                std_out res.1 = std_out p).
Proof.
  intros Hr Hout Hin res.
  assert (Hres : res = (redirect os r path ;; exec_stage os pre) p)
    by (by apply launcher_with_redirection).
  split; [exact Hres|]. rewrite Hres. clear Hres res.
  destruct Hr as [-> | ->]; destruct pre as [|prog0 pre']; run_launcher;
    case_oracle os; rewrite <- ?app_assoc, ?drop_app_length; simpl;
    (split; [reflexivity|]); intros prog argv Hexec; simplify_eq;
    (split; [reflexivity|]); split; intros ?; simplify_eq; done.
Qed.

(** C10, as the code has it: a [>] or [<] that is the last token of a stage
    with no redirection symbol before it redirects nothing; the launcher
    calls no [open] and no [dup2], and executes the program on the whole
    token sequence, the symbol included as its last argument. *)
Theorem C10_trailing_symbol_passed_through (os : os_world) (pre : list string)
    (r : string) (p : process) :
  r = ">" \/ r = "<" -> ">" ∉ pre -> "<" ∉ pre ->
  let res := execute_single_command os (pre ++ [r]) p in
  res = exec_stage os (pre ++ [r]) p /\
  forall prog,
    head (pre ++ [r]) = Some prog ->
    execvp_fails os prog = false ->
    res = (log (SysExecvp prog (pre ++ [r])) p, Execed prog (pre ++ [r])) /\
    last (pre ++ [r]) = Some r.
Proof.
  intros Hr Hout Hin res.
  assert (Hres : res = exec_stage os (pre ++ [r]) p).
  { subst res. unfold execute_single_command.
    by rewrite find_redirection_last. }
  split; [exact Hres|]. intros prog Hhead Hexec. rewrite Hres.
  split; [|apply last_snoc].
  destruct (pre ++ [r]) as [|a l] eqn:E; simplify_eq/=.
  unfold and_then, emit, finish; simpl. by rewrite Hexec.
Qed.

(** ** Output files *)

Lemma output_flags_value : output_flags = 577%Z.
Proof. reflexivity. Qed.

Lemma open_effect_output (os : os_world) (path : string) (m : gmap string file) :
  open_effect os path output_flags output_mode m
  = <[path := File (mode_after_open os path m) []]> m.
Proof.
  unfold open_effect, mode_after_open. by destruct (m !! path).
Qed.

Lemma write_effect_truncated (path : string) (mode : Z) (out : list byte)
    (m : gmap string file) :
  write_effect path output_flags out (<[path := File mode []]> m)
  = <[path := File mode out]> m.
Proof.
  unfold write_effect. rewrite lookup_insert_eq. simpl.
  by rewrite drop_nil, app_nil_r, insert_insert_eq.
Qed.

Lemma open_effect_again (os : os_world) (path : string) (mode : Z)
    (data : list byte) (m : gmap string file) :
  open_effect os path output_flags output_mode (<[path := File mode data]> m)
  = <[path := File mode []]> m.
Proof.
  rewrite open_effect_output. unfold mode_after_open.
  by rewrite lookup_insert_eq, insert_insert_eq.
Qed.

Lemma run_stage_output (os : os_world) (pre : list string) (path : string)
    (post : list string) (m : gmap string file) :
  ">" ∉ pre -> "<" ∉ pre ->
  run_stage os (pre ++ ">" :: path :: post) m = after_output_stage os pre path m.
Proof.
  intros Hout Hin. unfold run_stage, after_output_stage.
  rewrite launcher_with_redirection by auto.
  destruct pre as [|prog pre']; run_launcher; case_oracle os;
    rewrite ?open_effect_output, ?write_effect_truncated; reflexivity.
Qed.

Lemma after_output_stage_idempotent (os : os_world) (pre : list string)
    (path : string) (m : gmap string file) :
  after_output_stage os pre path (after_output_stage os pre path m)
  = after_output_stage os pre path m.
Proof.
  unfold after_output_stage at 2.
  destruct (open_ret os path output_flags <? 0)%Z eqn:Hopen.
  { unfold after_output_stage. by rewrite Hopen. }
  assert (Hmode : forall data,
             mode_after_open os path
               (<[path := File (mode_after_open os path m) data]> m)
             = mode_after_open os path m).
  { intros data. unfold mode_after_open at 1. by rewrite lookup_insert_eq. }
  destruct (dup2_ret os (FileStream path output_flags) STDOUT_FILENO <? 0)%Z eqn:Hdup.
  { unfold after_output_stage. by rewrite Hopen, Hdup, Hmode, insert_insert_eq. }
  destruct pre as [|prog pre'].
  { unfold after_output_stage. by rewrite Hopen, Hdup, Hmode, insert_insert_eq. }
  destruct (execvp_fails os prog) eqn:Hexec;
    unfold after_output_stage; rewrite Hopen, Hdup, Hexec, Hmode;
    by rewrite !insert_insert_eq.
Qed.

(** C8: the launcher opens the file of [>] write-only with [O_CREAT] and
    [O_TRUNC] and without [O_APPEND], mode 0644 (420).  Once that [open]
    has succeeded the file exists and is empty, whatever it held before.
    When [open], [dup2] and [execvp] all succeed the program is executed
    with the file as its standard output, and afterwards the file holds
    exactly what the program wrote, nothing of its old content and nothing
    appended to it.  Running the stage on the file system its own first run
    left behind changes nothing. *)
Theorem C8_output_redirection_overwrites (os : os_world) (pre : list string)
    (path : string) (post : list string) (m : gmap string file) :
  ">" ∉ pre -> "<" ∉ pre ->
  let args := pre ++ ">" :: path :: post in
  let res := execute_single_command os args (initial_process m) in
  let emptied := <[path := File (mode_after_open os path m) []]> m in
  (exists evs,
      trace res.1
      = SysOpen path (Z.lor (Z.lor O_WRONLY O_CREAT) O_TRUNC) 420
                (open_ret os path output_flags) :: evs) /\
  (has_flag output_flags O_TRUNC = true /\ has_flag output_flags O_CREAT = true /\
   has_flag output_flags O_APPEND = false /\
   opened_for_writing output_flags = true) /\
  run_stage os args (run_stage os args m) = run_stage os args m /\
  (forall prog argv,
      res.2 = Execed prog argv ->
      exists mode out,
        out = program_stdout os pre (open_effect os path output_flags output_mode m) /\
        run_stage os args m !! path = Some (File mode out)) /\
  ((0 <= open_ret os path output_flags)%Z -> fs res.1 = emptied) /\
  (forall prog rest,
      pre = prog :: rest ->
      (0 <= open_ret os path output_flags)%Z ->
      (0 <= dup2_ret os (FileStream path output_flags) STDOUT_FILENO)%Z ->
      execvp_fails os prog = false ->
      res.2 = Execed prog pre /\
      std_out res.1 = FileStream path output_flags /\
      trace res.1
      = [SysOpen path output_flags output_mode (open_ret os path output_flags);
         SysDup2 (FileStream path output_flags) STDOUT_FILENO
                 (dup2_ret os (FileStream path output_flags) STDOUT_FILENO);
         SysCloseFile path;
         SysExecvp prog pre] /\
      run_stage os args m
      = <[path := File (mode_after_open os path m)
                       (program_stdout os pre emptied)]> m).
Proof.
  intros Hout Hin args res emptied.
  split; [|split; [done|split; [|split; [|split]]]].
  - subst res args. rewrite launcher_with_redirection by auto.
    destruct pre as [|prog pre']; run_launcher; case_oracle os; eauto.
  - subst args. rewrite !run_stage_output by done.
    apply after_output_stage_idempotent.
  - intros prog argv. subst res args. rewrite run_stage_output by done.
    rewrite launcher_with_redirection by auto.
    unfold after_output_stage. rewrite open_effect_output.
    destruct pre as [|prog0 pre']; run_launcher; case_oracle os;
      intros ?; simplify_eq.
    eexists _, _. split; [reflexivity|]. apply lookup_insert_eq.
  - intros Hopen. apply Z.ltb_ge in Hopen. subst res args emptied.
    rewrite launcher_with_redirection by auto.
    destruct pre as [|prog pre']; run_launcher; rewrite Hopen; simpl;
      case_oracle os; by rewrite open_effect_output.
  - intros prog rest -> Hopen Hdup Hexec. subst res args emptied.
    rewrite run_stage_output by done. unfold after_output_stage.
    rewrite launcher_with_redirection by auto.
    apply Z.ltb_ge in Hopen, Hdup.
    run_launcher. rewrite Hopen. simpl. rewrite Hdup. simpl.
    rewrite Hexec. simpl. done.
Qed.

(** ** Wait statuses *)

Lemma signaled_not_exited (status : Z) :
  WIFSIGNALED status = true -> WIFEXITED status = false.
Proof.
  unfold WIFSIGNALED, WIFEXITED.
  destruct (Z.eqb_spec (WTERMSIG status) 0) as [->|]; done.
Qed.

Lemma exit_status_decoded (code : Z) :
  (0 <= code < 256)%Z ->
  WIFEXITED (W_EXITCODE code 0) = true /\
  WEXITSTATUS (W_EXITCODE code 0) = code /\
  WIFSIGNALED (W_EXITCODE code 0) = false.
Proof.
  intros Hcode.
  assert (Hall : Forall (fun c => WIFEXITED (W_EXITCODE c 0) = true /\
                                  WEXITSTATUS (W_EXITCODE c 0) = c /\
                                  WIFSIGNALED (W_EXITCODE c 0) = false)
                        (seqZ 0 256)).
  { apply (bool_decide_unpack _). by vm_compute. }
  rewrite Forall_forall in Hall. apply Hall, elem_of_seqZ. lia.
Qed.

Lemma signal_status_decoded (sig : Z) :
  (1 <= sig < 127)%Z ->
  WIFSIGNALED (W_EXITCODE 0 sig) = true /\ WIFEXITED (W_EXITCODE 0 sig) = false.
Proof.
  intros Hsig.
  assert (Hall : Forall (fun s => WIFSIGNALED (W_EXITCODE 0 s) = true /\
                                  WIFEXITED (W_EXITCODE 0 s) = false)
                        (seqZ 1 126)).
  { apply (bool_decide_unpack _). by vm_compute. }
  rewrite Forall_forall in Hall. apply Hall, elem_of_seqZ. lia.
Qed.

(** ** The foreground supervisor *)

Lemma report_status_events (exit_status : Z) (p : process) :
  exists report,
    report_status exit_status p = (add_events report p, Running) /\
    ((exists text, Stderr text ∈ report)
     <-> WIFEXITED exit_status = true /\ WEXITSTATUS exit_status <> 0%Z) /\
    (WIFSIGNALED exit_status = true -> report = []).
Proof.
  unfold report_status.
  destruct (WIFEXITED exit_status) eqn:Hexited; simpl.
  - destruct (Z.eqb_spec (WEXITSTATUS exit_status) 0) as [Hz|Hnz]; simpl.
    + exists []. split; [by rewrite add_events_nil|]. split.
      * split; [intros [text Ht]; by apply elem_of_nil in Ht|intros [_ ?]; done].
      * done.
    + eexists [_]. split; [reflexivity|]. split.
      * split; [done|]. intros _. eexists. by left.
      * intros Hsig. apply signaled_not_exited in Hsig. congruence.
  - exists []. split; [by rewrite add_events_nil|]. split.
    + split; [intros [text Ht]; by apply elem_of_nil in Ht|intros [? _]; done].
    + done.
Qed.

Lemma supervise_foreground_parent (os : os_world) (child_pid : Z) (p : process) :
  (0 < timeout_fork_ret os)%Z ->
  supervise_foreground os child_pid p
  = report_status (wait_status os)
      (add_events [SysFork (timeout_fork_ret os); SysWaitpid child_pid;
                   SysKill (timeout_fork_ret os) SIGINT;
                   SysWaitpid (timeout_fork_ret os)]
                  (set_foreground child_pid p)).
Proof.
  intros Hpos. unfold supervise_foreground.
  assert ((timeout_fork_ret os <? 0)%Z = false) as -> by (apply Z.ltb_ge; lia).
  assert ((timeout_fork_ret os =? 0)%Z = false) as -> by (apply Z.eqb_neq; lia).
  unfold and_then at 1. simpl. unfold and_then at 1. simpl.
  unfold and_then at 1. simpl. unfold and_then at 1. simpl.
  unfold and_then at 1. simpl.
  unfold log, add_events, set_foreground; simpl. by rewrite <- !app_assoc.
Qed.

Lemma run_external_foreground (os : os_world) (args : list string) (p : process) :
  (0 < shell_fork_ret os)%Z ->
  run_external os args false p
  = supervise_foreground os (shell_fork_ret os)
                         (log (SysFork (shell_fork_ret os)) p).
Proof.
  intros Hpos. unfold run_external.
  assert ((shell_fork_ret os <? 0)%Z = false) as -> by (apply Z.ltb_ge; lia).
  assert ((shell_fork_ret os =? 0)%Z = false) as -> by (apply Z.eqb_neq; lia).
  reflexivity.
Qed.


(** After a foreground job the slot still holds the pid of the child that
    has been waited for. *)
Lemma foreground_slot_after_job (os : os_world) (args : list string) (p : process) :
  (0 < shell_fork_ret os)%Z ->
  (0 < timeout_fork_ret os)%Z ->
  foreground_process_id (run_external os args false p).1 = shell_fork_ret os.
Proof.
  intros Hchild Hdog.
  rewrite run_external_foreground, supervise_foreground_parent by done.
  destruct (report_status_events (wait_status os)
              (add_events [SysFork (timeout_fork_ret os);
                           SysWaitpid (shell_fork_ret os);
                           SysKill (timeout_fork_ret os) SIGINT;
                           SysWaitpid (timeout_fork_ret os)]
                          (set_foreground (shell_fork_ret os)
                             (log (SysFork (shell_fork_ret os)) p))))
    as (report & Hrun & _). by rewrite Hrun.
Qed.

(** ** The prompt loop *)

Lemma returns_emit (e : event) : returns_to_loop (emit e).
Proof. by intros p. Qed.

Lemma returns_skip : returns_to_loop skip.
Proof. by intros p. Qed.

Lemma returns_and_then (a b : action) :
  returns_to_loop a -> returns_to_loop b -> returns_to_loop (a ;; b).
Proof. intros Ha Hb p. unfold and_then. simpl. rewrite Ha. apply Hb. Qed.

Lemma returns_if (c : bool) (a b : action) :
  returns_to_loop a -> returns_to_loop b -> returns_to_loop (if c then a else b).
Proof. by destruct c. Qed.

Lemma returns_for_each {A : Type} (body : A -> action) (l : list A) :
  (forall x, returns_to_loop (body x)) -> returns_to_loop (for_each body l).
Proof.
  intros Hbody. induction l as [|x l IH]; simpl.
  - apply returns_skip.
  - by apply returns_and_then.
Qed.

Lemma returns_report_status (exit_status : Z) :
  returns_to_loop (report_status exit_status).
Proof.
  unfold report_status. apply returns_if; [apply returns_emit|apply returns_skip].
Qed.

Lemma returns_register_foreground (pid : Z) :
  returns_to_loop (register_foreground pid).
Proof. by intros p. Qed.

Create HintDb loop.

#[local] Hint Resolve returns_emit returns_skip returns_and_then returns_if
  returns_for_each returns_report_status returns_register_foreground : loop.

(** In the shell itself, where neither [fork] returned 0, an external
    command always ends with the shell back at the top of its loop. *)
Lemma run_external_returns (os : os_world) (args : list string) (bg : bool) :
  shell_fork_ret os <> 0%Z -> timeout_fork_ret os <> 0%Z ->
  returns_to_loop (run_external os args bg).
Proof.
  intros Hchild Hdog. unfold run_external, supervise_foreground.
  apply Z.eqb_neq in Hchild, Hdog. rewrite Hchild, Hdog.
  auto 12 with loop.
Qed.

(** The child of an external command never comes back to the loop. *)
Lemma run_external_child_leaves (os : os_world) (args : list string)
    (bg : bool) (p : process) :
  shell_fork_ret os = 0%Z -> (run_external os args bg p).2 <> Running.
Proof.
  intros Hzero. unfold run_external. rewrite Hzero. simpl.
  apply and_then_never_running. intros q1.
  apply and_then_never_running. intros q2.
  apply and_then_never_running. intros q3. done.
Qed.

Lemma builtin_cd_returns (os : os_world) (args : list string) :
  returns_to_loop (builtin_cd os args).
Proof.
  unfold builtin_cd, change_directory.
  destruct (args !! 1); [|destruct (getenv_ret os "HOME")]; auto with loop.
Qed.

Lemma builtin_pwd_returns (os : os_world) : returns_to_loop (builtin_pwd os).
Proof. unfold builtin_pwd. destruct (getcwd_ret os 1); auto with loop. Qed.

Lemma echo_argument_returns (os : os_world) (argument : string) :
  returns_to_loop (echo_argument os argument).
Proof.
  intros p. unfold echo_argument.
  repeat case_match; reflexivity.
Qed.

Lemma builtin_echo_returns (os : os_world) (args : list string) :
  returns_to_loop (builtin_echo os args).
Proof.
  unfold builtin_echo. pose proof (echo_argument_returns os). auto with loop.
Qed.

Lemma builtin_env_returns (os : os_world) (args : list string) :
  returns_to_loop (builtin_env os args).
Proof.
  unfold builtin_env.
  destruct (args !! 1) as [name|]; [destruct (getenv_ret os name)|];
    auto with loop.
Qed.

Lemma builtin_setenv_stays (args : list string) :
  stays_in_loop (builtin_setenv args).
Proof.
  intros p. unfold builtin_setenv.
  destruct (args !! 1) as [assignment|]; [|by left].
  destruct (strtok_all "=" assignment) as [|t1 [|t2 l]];
    [by left|by left|by right].
Qed.

Lemma dispatch_exit (os : os_world) (args : list string) (bg : bool)
    (p : process) (code : Z) :
  shell_fork_ret os <> 0%Z -> timeout_fork_ret os <> 0%Z ->
  (dispatch os args bg p).2 = Exited code ->
  head args = Some "exit" /\ code = 0%Z.
Proof.
  intros Hchild Hdog. unfold dispatch.
  destruct args as [|name rest]; [done|].
  destruct (String.eqb name "cd").
  { by rewrite builtin_cd_returns. }
  destruct (String.eqb name "pwd").
  { by rewrite builtin_pwd_returns. }
  destruct (String.eqb name "echo").
  { by rewrite builtin_echo_returns. }
  destruct (String.eqb_spec name "exit") as [->|_].
  { simpl. intros ?; simplify_eq. done. }
  destruct (String.eqb name "env").
  { by rewrite builtin_env_returns. }
  destruct (String.eqb name "setenv").
  { destruct (builtin_setenv_stays (name :: rest) p) as [-> | ->]; done. }
  by rewrite run_external_returns.
Qed.

Lemma getcwd_failure_is_fatal (os : os_world) (p : process) :
  getcwd_ret os 0 = None ->
  shell_iteration os p = (log (Perror "getcwd") p, Exited 1).
Proof. intros H. unfold shell_iteration. by rewrite H. Qed.

(** The line [&] leaves no token once the [&] is removed, and the first
    [strcmp] reads through a null pointer. *)
Lemma lone_ampersand_undefined :
  (shell_iteration (shell_world "&" 0) fresh_shell).2 = Undefined.
Proof. reflexivity. Qed.

(** C5, as the code has it: in the shell process an external command ends
    with the shell back at its prompt loop whatever [fork] and [waitpid]
    report (a failed [fork], a child that exited with any status or was
    killed); and a turn of the loop ends the shell by [exit] only when
    [getcwd] fails before the prompt, when reading standard input fails or
    hits end of file, or when the command is the built-in [exit]. *)
Theorem C5_shell_survives_errors (os : os_world) (p : process) :
  shell_fork_ret os <> 0%Z ->
  timeout_fork_ret os <> 0%Z ->
  (forall args bg q, (run_external os args bg q).2 = Running) /\
  (forall code,
      (shell_iteration os p).2 = Exited code ->
      getcwd_ret os 0 = None \/
      fgets_ret os = ReadError \/
      fgets_ret os = ReadEOF \/
      exists buffer tokens,
        fgets_ret os = ReadLine buffer /\
        tokenize (strip_newline buffer) = Some tokens /\
        head tokens = Some "exit").
Proof.
  intros Hchild Hdog. split.
  { intros args bg q. by apply run_external_returns. }
  intros code. unfold shell_iteration.
  destruct (getcwd_ret os 0) as [cwd|]; [|by left].
  destruct (fgets_ret os) as [| |buffer]; [by right; left|by right; right; left|].
  intros Hexit. right; right; right. exists buffer.
  unfold and_then in Hexit; simpl in Hexit.
  destruct (String.length (strip_newline buffer) =? 0); [done|].
  destruct (tokenize (strip_newline buffer)) as [tokens|]; [|done].
  exists tokens. split; [done|]. split; [done|].
  unfold run_tokens in Hexit.
  destruct (last tokens) as [final_argument|]; [|done].
  destruct (MAX_ARGUMENTS <=? length tokens); [done|].
  destruct (String.eqb final_argument "&").
  - apply dispatch_exit in Hexit as [Hhead _]; [|done..].
    destruct tokens as [|t0 tokens']; [done|].
    destruct tokens' as [|t1 tokens'']; [done|].
    simpl in Hhead. done.
  - by apply dispatch_exit in Hexit as [Hhead _].
Qed.

(** ** Malformed pipelines *)

(** C1: the pipeline [ls |] ends with a pipe symbol and is not turned down.
    The splitter yields the stages [ls] and the empty stage; the
    orchestrating process prints no message, creates one pipe and forks two
    children, and the child of the empty stage wires its input and exits
    with status 1. *)
Theorem C1_trailing_pipe_not_rejected :
  split_commands ["ls"; "|"] = SplitOk [["ls"]; []] /\
  (let r := execute_command_with_pipes_and_redirection
              (shell_world "ls |" 0) ["ls"; "|"] fresh_shell in
   r.2 = Running /\
   trace r.1 = [SysPipe 0 0; SysFork 200; SysFork 201; SysClosePipe 0 0;
                SysClosePipe 0 1; SysWaitpid 200; SysWaitpid 201]) /\
  (let r := execute_command_with_pipes_and_redirection
              (stage_world 1) ["ls"; "|"] fresh_shell in
   r.2 = Exited 1 /\
   trace r.1 = [SysPipe 0 0; SysFork 200; SysFork 0;
                SysDup2 (PipeStream 0 0) 0 0; SysClosePipe 0 1]).
Proof. by vm_compute. Qed.

(** ** The foreground slot *)

(** C3: after the foreground job [ls] (child 100, watchdog 101, both waited
    for) the shell is back at its loop with [foreground_process_id] still
    100, so that an interrupt at the prompt sends [SIGINT] to the process
    that no longer exists; the background path does store -1. *)
Theorem C3_foreground_slot_left_stale :
  (let r := shell_iteration (shell_world "ls" 0) fresh_shell in
   r.2 = Running /\
   trace r.1 = [Stdout "/home/user > "; SysFork 100; SysFork 101;
                SysWaitpid 100; SysKill 101 SIGINT; SysWaitpid 101] /\
   foreground_process_id r.1 = 100%Z /\
   trace (handle_interrupt_signal SIGINT r.1).1
   = trace r.1 ++ [SysKill 100 SIGINT]) /\
  (let r := shell_iteration (shell_world "ls &" 0) fresh_shell in
   r.2 = Running /\ foreground_process_id r.1 = (-1)%Z).
Proof. by vm_compute. Qed.

(** ** Concrete runs *)

(** C4 as stated fails on [cat >]: the stage holds a redirection symbol, no
    file is opened, and the program receives the symbol. *)
Lemma C4_counterexample :
  ">" ∈ ["cat"; ">"] /\
  execute_single_command (stage_world 0) ["cat"; ">"] fresh_shell
  = (log (SysExecvp "cat" ["cat"; ">"]) fresh_shell, Execed "cat" ["cat"; ">"]).
Proof. split; [by right; left|reflexivity]. Qed.

(** The stage [sort > out.txt < in.txt]: one [open], of [out.txt]. *)
Lemma C4_witness :
  List.filter is_open_event
    (drop (length (trace fresh_shell))
       (trace (execute_single_command (stage_world 0)
                 (["sort"] ++ ">" :: "out.txt" :: ["<"; "in.txt"]) fresh_shell).1))
  = [SysOpen "out.txt" output_flags output_mode 3].
Proof.
  destruct (C4_first_redirection_wins (stage_world 0) ["sort"] ">" "out.txt"
              ["<"; "in.txt"] fresh_shell) as (_ & H & _).
  - left; reflexivity.
  - apply (bool_decide_unpack _). vm_compute. exact I.
  - apply (bool_decide_unpack _). vm_compute. exact I.
  - exact H.
Defined.

(** C5 as stated fails when [getcwd] fails before the prompt: standard
    input holds the line [ls], and the shell exits with status 1. *)
Lemma C5_counterexample :
  let os := sample_world None (ReadLine ("ls" +:+ nl)) 0 parent_forks in
  fgets_ret os = ReadLine ("ls" +:+ nl) /\
  shell_iteration os fresh_shell = (log (Perror "getcwd") fresh_shell, Exited 1).
Proof. split; reflexivity. Qed.

(** The foreground command [ls] in the shell. *)
Lemma C5_witness :
  (run_external (shell_world "ls" 0) ["ls"] false fresh_shell).2 = Running.
Proof.
  destruct (C5_shell_survives_errors (shell_world "ls" 0) fresh_shell) as [H _].
  - simpl. lia.
  - simpl. lia.
  - apply H.
Defined.

(** C6 as stated fails on the first stage of [ls | wc]: when [ls] is
    executed the descriptor [pipe_file_descriptors[0][1]] is still open
    next to its copy on standard output. *)
Lemma C6_counterexample :
  let r := execute_command_with_pipes_and_redirection
             (stage_world 0) ["ls"; "|"; "wc"] fresh_shell in
  r.2 = Execed "ls" ["ls"] /\
  std_out r.1 = PipeStream 0 1 /\
  elements (pipe_fds r.1) = [(0, 1)].
Proof. by vm_compute. Qed.

(** The middle stage of [ls | sort | wc]. *)
Lemma C6_witness :
  pipe_fds (execute_command_with_pipes_and_redirection
              (stage_world 1) ["ls"; "|"; "sort"; "|"; "wc"] fresh_shell).1
  = kept_fds 2 1.
Proof.
  destruct (C6_child_keeps_wired_descriptors (stage_world 1)
              ["ls"; "|"; "sort"; "|"; "wc"] [["ls"]; ["sort"]; ["wc"]]
              1 fresh_shell) as (q & _ & _ & _ & _ & H).
  - reflexivity.
  - simpl. lia.
  - simpl. lia.
  - intros j _. simpl. lia.
  - intros i Hi. assert (i = 0) as -> by lia. vm_compute. reflexivity.
  - reflexivity.
  - intros j e t [-> | ->]; simpl; unfold STDIN_FILENO, STDOUT_FILENO; lia.
  - reflexivity.
  - exact H.
Defined.

(** The orchestrating process of [ls | sort | wc]. *)
Lemma C2_witness :
  pipe_fds (execute_command_with_pipes_and_redirection
              (shell_world "ls | sort | wc" 0)
              ["ls"; "|"; "sort"; "|"; "wc"] fresh_shell).1
  = ∅.
Proof.
  destruct (C2_pipeline_plumbing (shell_world "ls | sort | wc" 0)
              ["ls"; "|"; "sort"; "|"; "wc"] [["ls"]; ["sort"]; ["wc"]]
              fresh_shell) as (_ & _ & _ & _ & H).
  - reflexivity.
  - simpl. lia.
  - intros j _. simpl. lia.
  - intros i _. simpl. unfold parent_forks. lia.
  - reflexivity.
  - exact H.
Defined.

(** The command [grep -n main shell2.c]. *)
Lemma C7_witness :
  split_commands ["grep"; "-n"; "main"; "shell2.c"]
  = SplitOk [["grep"; "-n"; "main"; "shell2.c"]].
Proof.
  apply (C7_no_pipe_single_stage (stage_world 0)
           ["grep"; "-n"; "main"; "shell2.c"] fresh_shell).
  - apply (bool_decide_unpack _). vm_compute. exact I.
  - unfold MAX_ARGUMENTS. simpl. lia.
Defined.

(** The stage [echo hi > out.txt] where [out.txt] holds [old]: afterwards
    it holds [hi] and a newline, and a second run leaves that as it is. *)
Lemma C8_witness :
  run_stage (stage_world 0) (["echo"; "hi"] ++ ">" :: "out.txt" :: []) stale_files
    !! "out.txt"
  = Some (File 384 sample_output) /\
  run_stage (stage_world 0) (["echo"; "hi"] ++ ">" :: "out.txt" :: [])
    (run_stage (stage_world 0) (["echo"; "hi"] ++ ">" :: "out.txt" :: [])
       stale_files)
  = run_stage (stage_world 0) (["echo"; "hi"] ++ ">" :: "out.txt" :: [])
      stale_files.
Proof.
  destruct (C8_output_redirection_overwrites (stage_world 0) ["echo"; "hi"]
              "out.txt" [] stale_files) as (_ & _ & Hidem & _ & _ & Hrun).
  - apply (bool_decide_unpack _). vm_compute. exact I.
  - apply (bool_decide_unpack _). vm_compute. exact I.
  - split; [|exact Hidem].
    destruct (Hrun "echo" ["hi"]) as (_ & _ & _ & ->).
    + reflexivity.
    + simpl. lia.
    + simpl. unfold STDOUT_FILENO. lia.
    + reflexivity.
    + rewrite lookup_insert_eq. reflexivity.
Defined.


(** C10 as stated fails on [cat > out.txt <]: the last token is [<], and
    the program is executed on [cat] alone. *)
Lemma C10_counterexample :
  let r := execute_single_command (stage_world 0)
             ["cat"; ">"; "out.txt"; "<"] fresh_shell in
  last ["cat"; ">"; "out.txt"; "<"] = Some "<" /\
  r.2 = Execed "cat" ["cat"] /\
  "<" ∉ ["cat"].
Proof.
  split; [reflexivity|]. split; [reflexivity|].
  apply (bool_decide_unpack _). vm_compute. exact I.
Qed.

(** The stage [cat notes.txt >]. *)
Lemma C10_witness :
  execute_single_command (stage_world 0) (["cat"; "notes.txt"] ++ [">"]) fresh_shell
  = (log (SysExecvp "cat" ["cat"; "notes.txt"; ">"]) fresh_shell,
     Execed "cat" ["cat"; "notes.txt"; ">"]).
Proof.
  destruct (C10_trailing_symbol_passed_through (stage_world 0)
              ["cat"; "notes.txt"] ">" fresh_shell) as [_ H].
  - left; reflexivity.
  - apply (bool_decide_unpack _). vm_compute. exact I.
  - apply (bool_decide_unpack _). vm_compute. exact I.
  - destruct (H "cat") as [Hrun _]; [reflexivity|reflexivity|exact Hrun].
Defined.

(** * Further properties *)

(** ** The splitter *)

Lemma split_loop_pipe_free (args : list string) :
  forall (done : list (list string)) (cur : list string)
         (stages : list (list string)),
    Forall (fun s => "|" ∉ s) done -> "|" ∉ cur ->
    split_loop args done cur = SplitOk stages ->
    Forall (fun s => "|" ∉ s) stages.
Proof.
  induction args as [|a args IH]; intros done cur stages Hdone Hcur; simpl.
  - destruct (in_bounds (length done) (length cur)); [|done].
    intros ?; simplify_eq. apply Forall_app. split; [done|by constructor].
  - destruct (String.eqb_spec a "|") as [->|Hne].
    + destruct (length cur =? 0); [done|].
      destruct (in_bounds (length done) (length cur)); [|done].
      apply IH.
      * apply Forall_app. split; [done|by constructor].
      * apply not_elem_of_nil.
    + destruct (in_bounds (length done) (length cur)); [|done].
      apply IH; [done|]. rewrite elem_of_app, list_elem_of_singleton.
      intros [?|?]; [done|congruence].
Qed.

Lemma split_loop_invalid_inv (args : list string) :
  forall (done : list (list string)) (cur : list string),
    split_loop args done cur = SplitInvalid ->
    (cur = [] /\ head args = Some "|") \/
    exists l1 l2, args = l1 ++ "|" :: "|" :: l2.
Proof.
  induction args as [|a args IH]; intros done cur; simpl.
  - by destruct (in_bounds (length done) (length cur)).
  - destruct (String.eqb_spec a "|") as [->|Hne].
    + destruct cur as [|c cur]; simpl; [by left|].
      destruct (in_bounds (length done) (S (length cur))); [|done].
      intros H. apply IH in H as [[_ Hhead]|(l1 & l2 & ->)]; right.
      * destruct args as [|b args]; simplify_eq/=. by exists [], args.
      * by exists ("|" :: l1), l2.
    + destruct (in_bounds (length done) (length cur)); [|done].
      intros H. apply IH in H as [[Hnil _]|(l1 & l2 & ->)].
      * by destruct cur.
      * right. by exists (a :: l1), l2.
Qed.

Lemma split_loop_no_overflow (args : list string) :
  forall (done : list (list string)) (cur : list string),
    length done + length cur + length args < MAX_ARGUMENTS ->
    split_loop args done cur <> SplitOverflow.
Proof.
  induction args as [|a args IH]; intros done cur Hlen; simpl in *.
  - by rewrite in_bounds_lt by lia.
  - rewrite in_bounds_lt by lia.
    destruct (String.eqb a "|").
    + destruct (length cur =? 0); [done|].
      apply IH. rewrite length_app. simpl. lia.
    + apply IH. rewrite length_app. simpl. lia.
Qed.

(** X1: what the splitter returns is a partition of its input at the pipe
    symbols.  Joined again with pipe symbols the stages give back the token
    sequence, there is one stage more than there are pipe symbols, and no
    stage holds a pipe symbol. *)
Theorem X1_split_is_partition (args : list string) (stages : list (list string)) :
  split_commands args = SplitOk stages ->
  join_stages stages = args /\
  length stages = count_pipes args + 1 /\
  Forall (fun s => "|" ∉ s) stages.
Proof.
  intros H. destruct (split_commands_partition args stages H) as [Hjoin Hlen].
  split; [done|]. split; [done|].
  apply (split_loop_pipe_free args [] [] stages); [constructor|apply not_elem_of_nil|done].
Qed.

Lemma X1_witness :
  join_stages [["ls"; "-l"]; ["sort"]; ["wc"; "-l"]]
  = ["ls"; "-l"; "|"; "sort"; "|"; "wc"; "-l"].
Proof.
  apply (X1_split_is_partition ["ls"; "-l"; "|"; "sort"; "|"; "wc"; "-l"]
           [["ls"; "-l"]; ["sort"]; ["wc"; "-l"]]).
  reflexivity.
Defined.

Lemma split_invalid_iff (args : list string) :
  length args < MAX_ARGUMENTS ->
  split_commands args = SplitInvalid <-> malformed_pipeline args.
Proof.
  intros Hlen. split.
  - intros H. apply split_loop_invalid_inv in H as [[_ H]|H]; [by left|by right].
  - intros [H|(l1 & l2 & ->)].
    + destruct args as [|a rest]; simplify_eq/=. reflexivity.
    + apply split_loop_double_pipe. simpl. lia.
Qed.

(** X2: for a token sequence that fits the argument array the splitter
    never stores out of bounds, and it reports an invalid pipe command
    exactly when the sequence starts with a pipe symbol or holds two pipe
    symbols in a row. *)
Theorem X2_invalid_iff_malformed (args : list string) :
  length args < MAX_ARGUMENTS ->
  (split_commands args = SplitInvalid <-> malformed_pipeline args) /\
  split_commands args <> SplitOverflow.
Proof.
  intros Hlen. split; [by apply split_invalid_iff|].
  apply split_loop_no_overflow. simpl. lia.
Qed.

Lemma X2_witness :
  split_commands ["ls"; "|"; "|"; "wc"] = SplitInvalid.
Proof.
  apply (X2_invalid_iff_malformed ["ls"; "|"; "|"; "wc"]).
  - unfold MAX_ARGUMENTS. simpl. lia.
  - right. by exists ["ls"], ["wc"].
Defined.

Lemma closed_rows_snoc (front : list (list string)) (s : list string) :
  closed_rows (front ++ [s]) = (closed_rows front ++ s) ++ ["|"].
Proof.
  unfold closed_rows. rewrite bind_app, bind_singleton. by rewrite app_assoc.
Qed.

(** X3: in what the splitter returns only the last stage can be empty, and
    it is empty exactly when the token sequence is empty or ends with a
    pipe symbol. *)
Theorem X3_only_last_stage_empty (args : list string) (stages : list (list string)) :
  split_commands args = SplitOk stages ->
  exists front final,
    stages = front ++ [final] /\
    Forall (fun s => s <> []) front /\
    (final = [] <-> args = [] \/ last args = Some "|").
Proof.
  intros H.
  destruct (split_loop_nonempty args [] [] stages ltac:(constructor) H)
    as (front & final & -> & Hfront).
  exists front, final. split; [done|]. split; [done|].
  destruct (split_commands_partition args _ H) as [Hjoin _].
  rewrite join_stages_snoc in Hjoin.
  pose proof (split_loop_pipe_free args [] [] _ ltac:(constructor)
                (not_elem_of_nil _) H) as Hfree.
  apply Forall_app in Hfree as [_ Hfinal].
  inversion_clear Hfinal as [|? ? Hfinal' _].
  split.
  - intros ->. rewrite app_nil_r in Hjoin. subst args.
    destruct front as [|s front _] using rev_ind; [by left|right].
    rewrite closed_rows_snoc. apply last_snoc.
  - intros [->|Hlast].
    + by apply app_eq_nil in Hjoin as [_ ?].
    + destruct final as [|x final _] using rev_ind; [done|].
      exfalso. subst args. rewrite app_assoc, last_snoc in Hlast.
      simplify_eq. apply Hfinal'. rewrite elem_of_app, list_elem_of_singleton. auto.
Qed.

Lemma X3_witness :
  exists front final,
    [["ls"]; []] = front ++ [final] /\
    Forall (fun s => s <> []) front /\
    (final = [] <-> ["ls"; "|"] = [] \/ last ["ls"; "|"] = Some "|").
Proof.
  apply (X3_only_last_stage_empty ["ls"; "|"] [["ls"]; []]).
  reflexivity.
Defined.

(** X4: a pipeline that fits the argument array and starts with a pipe
    symbol, or holds two pipe symbols in a row, is turned down by the
    orchestrator: it prints the message and returns, having created no
    pipe, forked no process and executed nothing. *)
Theorem X4_malformed_pipeline_rejected (os : os_world) (args : list string)
    (p : process) :
  length args < MAX_ARGUMENTS ->
  malformed_pipeline args ->
  execute_command_with_pipes_and_redirection os args p
  = (log (Stdout ("Invalid pipe command" +:+ nl)) p, Returned).
Proof.
  intros Hlen Hbad. apply invalid_pipeline_rejected.
  by apply split_invalid_iff.
Qed.

Lemma X4_witness :
  execute_command_with_pipes_and_redirection (stage_world 0) ["|"; "wc"] fresh_shell
  = (log (Stdout ("Invalid pipe command" +:+ nl)) fresh_shell, Returned).
Proof.
  apply (X4_malformed_pipeline_rejected (stage_world 0) ["|"; "wc"] fresh_shell).
  - unfold MAX_ARGUMENTS. simpl. lia.
  - left. reflexivity.
Defined.

(** ** The launcher *)

Lemma find_redirection_absent (args : list string) (i : nat) :
  ">" ∉ args -> "<" ∉ args -> find_redirection args i = None.
Proof.
  intros Hout Hin. destruct args as [|a args _] using rev_ind; [done|].
  apply find_redirection_last.
  - intros H. apply Hout. rewrite elem_of_app. by left.
  - intros H. apply Hin. rewrite elem_of_app. by left.
Qed.

Lemma exec_stage_end (os : os_world) (argv : list string) (p : process) :
  launcher_end (exec_stage os argv p).2.
Proof.
  unfold launcher_end. destruct argv as [|prog argv]; simpl; [by left|].
  unfold and_then, emit, finish; simpl.
  destruct (execvp_fails os prog); simpl; [by right; left|right; right; eauto].
Qed.

Lemma and_then_launcher_end (a b : action) (p : process) :
  launcher_end (a p).2 -> (forall q, launcher_end (b q).2) ->
  launcher_end ((a ;; b) p).2.
Proof.
  intros Ha Hb. unfold and_then. destruct (a p) as [q c]; simpl in *.
  destruct c; simpl; auto.
Qed.

Lemma redirect_end (os : os_world) (r path : string) (p : process) :
  launcher_end (redirect os r path p).2.
Proof.
  unfold launcher_end. destruct (String.eqb r ">") eqn:Hr;
    run_launcher; rewrite Hr; run_launcher; case_oracle os; auto.
Qed.

(** X5: whatever its tokens and whatever the system calls return, the
    launcher creates no pipe, forks no process and leaves the table of pipe
    descriptors and the foreground slot alone; and it ends in one of three
    ways only: falling off its end, [exit(1)], or a successful [execvp]. *)
Theorem X5_launcher_contained (os : os_world) (args : list string) (p : process) :
  let res := execute_single_command os args p in
  pipe_fds res.1 = pipe_fds p /\
  (exists evs, trace res.1 = trace p ++ evs /\
               Forall (fun e => is_spawn_event e = false) evs) /\
  launcher_end res.2.
Proof.
  intros res. subst res.
  destruct (quiet_execute_single_command os args p) as [Hfds Hev].
  split; [done|]. split; [done|].
  unfold execute_single_command, redirect_output, redirect_input.
  pose proof (redirect_end os ">" ) as Hout.
  pose proof (redirect_end os "<" ) as Hin.
  unfold redirect in Hout, Hin. simpl in Hout, Hin.
  destruct (find_redirection args 0) as [[i path|i path]|].
  - apply and_then_launcher_end; [apply Hout|]. intros q. apply exec_stage_end.
  - apply and_then_launcher_end; [apply Hin|]. intros q. apply exec_stage_end.
  - apply exec_stage_end.
Qed.

(** X6: when the [open] of the first redirection fails, the launcher
    reports it and exits with status 1: no [dup2], nothing executed, the
    standard streams and the file system as they were. *)
Theorem X6_open_failure_exits (os : os_world) (pre : list string)
    (r path : string) (post : list string) (p : process) :
  is_redirection_symbol r -> ">" ∉ pre -> "<" ∉ pre ->
  (open_ret os path (redirection_flags r) < 0)%Z ->
  execute_single_command os (pre ++ r :: path :: post) p
  = (add_events [SysOpen path (redirection_flags r) (redirection_mode r)
                         (open_ret os path (redirection_flags r));
                 Perror "open"] p,
     Exited 1).
Proof.
  intros Hr Hout Hin Hfail. rewrite launcher_with_redirection by done.
  apply Z.ltb_lt in Hfail.
  unfold redirection_flags, redirection_mode in *.
  destruct Hr as [-> | ->]; simpl in *; run_launcher; rewrite Hfail; simpl;
    unfold add_events; simpl; by rewrite <- !app_assoc.
Qed.

Lemma X6_witness :
  (execute_single_command
     (scenario 0 0 0 (fun _ => 0%Z) (fun _ => 0%Z) (-1) false)
     (["cat"] ++ "<" :: "missing.txt" :: []) fresh_shell).2
  = Exited 1.
Proof.
  rewrite X6_open_failure_exits.
  - reflexivity.
  - right; reflexivity.
  - apply (bool_decide_unpack _). vm_compute. exact I.
  - apply (bool_decide_unpack _). vm_compute. exact I.
  - simpl. lia.
Defined.

(** X7: a stage without redirection symbol whose program cannot be
    executed: the launcher calls [execvp] on the whole token sequence,
    reports the failure and exits with status 1. *)
Theorem X7_exec_failure_exits (os : os_world) (prog : string)
    (rest : list string) (p : process) :
  ">" ∉ prog :: rest -> "<" ∉ prog :: rest ->
  execvp_fails os prog = true ->
  execute_single_command os (prog :: rest) p
  = (add_events [SysExecvp prog (prog :: rest); Perror "execvp"] p, Exited 1).
Proof.
  intros Hout Hin Hfail. unfold execute_single_command.
  rewrite find_redirection_absent by done. simpl.
  unfold and_then, emit, finish; simpl. rewrite Hfail. simpl.
  unfold add_events, log; simpl. by rewrite <- !app_assoc.
Qed.

Lemma X7_witness :
  (execute_single_command
     (scenario 0 0 0 (fun _ => 0%Z) (fun _ => 0%Z) 3 true)
     ["nosuchprogram"; "-x"] fresh_shell).2
  = Exited 1.
Proof.
  rewrite X7_exec_failure_exits.
  - reflexivity.
  - apply (bool_decide_unpack _). vm_compute. exact I.
  - apply (bool_decide_unpack _). vm_compute. exact I.
  - reflexivity.
Defined.

(** X8: a stage that starts with [> path]: when [open] and [dup2] succeed
    the file is created or emptied and standard output is the file, but the
    argument vector is cut at index 0, so nothing is executed and the
    launcher returns to its caller. *)
Theorem X8_redirection_without_program (os : os_world) (path : string)
    (post : list string) (p : process) :
  (0 <= open_ret os path output_flags)%Z ->
  (0 <= dup2_ret os (FileStream path output_flags) STDOUT_FILENO)%Z ->
  let res := execute_single_command os (">" :: path :: post) p in
  res.2 = Running /\
  std_out res.1 = FileStream path output_flags /\
  (exists mode, fs res.1 !! path = Some (File mode [])) /\
  List.filter is_exec_event (drop (length (trace p)) (trace res.1)) = [].
Proof.
  intros Hopen Hdup res. subst res.
  rewrite <- (app_nil_l (">" :: path :: post)).
  rewrite launcher_with_redirection by (auto using not_elem_of_nil).
  apply Z.ltb_ge in Hopen, Hdup.
  run_launcher. rewrite Hopen. simpl. rewrite Hdup. simpl.
  split; [done|]. split; [done|]. split.
  - rewrite open_effect_output. eexists. apply lookup_insert_eq.
  - rewrite <- !app_assoc, drop_app_length. reflexivity.
Qed.

Lemma X8_witness :
  (execute_single_command (stage_world 0) [">"; "empty.txt"] fresh_shell).2
  = Running.
Proof.
  apply (X8_redirection_without_program (stage_world 0) "empty.txt" [] fresh_shell).
  - simpl. lia.
  - simpl. unfold STDOUT_FILENO. lia.
Defined.

(** X9: a stage whose first redirection is [< path] never changes the file
    system, whatever the system calls return: the file is opened read-only
    and without [O_CREAT], so a missing input file is not created; and a
    stage without redirection symbol changes nothing either. *)
Theorem X9_input_redirection_reads_only (os : os_world) (pre : list string)
    (path : string) (post : list string) (m : gmap string file) :
  ">" ∉ pre -> "<" ∉ pre ->
  run_stage os (pre ++ "<" :: path :: post) m = m /\
  run_stage os pre m = m.
Proof.
  intros Hout Hin. unfold run_stage. split.
  - rewrite launcher_with_redirection by (done || by right).
    unfold open_effect.
    destruct pre as [|prog pre']; run_launcher; case_oracle os;
      unfold open_effect; simpl; by destruct (m !! path).
  - unfold execute_single_command. rewrite find_redirection_absent by done.
    destruct pre as [|prog pre']; run_launcher; case_oracle os; done.
Qed.

Lemma X9_witness :
  run_stage (stage_world 0) (["sort"] ++ "<" :: "in.txt" :: []) ∅ = ∅.
Proof.
  apply (X9_input_redirection_reads_only (stage_world 0) ["sort"] "in.txt" [] ∅).
  - apply (bool_decide_unpack _). vm_compute. exact I.
  - apply (bool_decide_unpack _). vm_compute. exact I.
Defined.

(** ** The orchestrator *)

Lemma create_pipe_fails (os : os_world) (j : nat) (p : process) :
  (pipe_ret os j < 0)%Z ->
  create_pipe os j p
  = (add_events [SysPipe j (pipe_ret os j); Perror "pipe"] p, Returned).
Proof.
  intros Hfail. apply Z.ltb_lt in Hfail.
  unfold create_pipe, and_then, sys_pipe, emit, finish. rewrite Hfail. simpl.
  unfold add_events, log; simpl. by rewrite <- !app_assoc.
Qed.

Lemma spawn_stage_fails (os : os_world) (stages : list (list string))
    (n i : nat) (p : process) :
  (fork_ret os i < 0)%Z ->
  spawn_stage os stages n i p
  = (add_events [SysFork (fork_ret os i); Perror "fork"] p, Returned).
Proof.
  intros Hfail. unfold spawn_stage, and_then, emit, finish; simpl.
  assert ((fork_ret os i =? 0)%Z = false) as -> by (apply Z.eqb_neq; lia).
  apply Z.ltb_lt in Hfail. rewrite Hfail. simpl.
  unfold add_events, log; simpl. by rewrite <- !app_assoc.
Qed.

Lemma pipeline_of_stages (os : os_world) (args : list string)
    (stages : list (list string)) (p : process) :
  split_commands args = SplitOk stages ->
  2 <= length stages ->
  execute_command_with_pipes_and_redirection os args p
  = run_pipeline os stages (length stages - 1) p.
Proof.
  intros Hsplit HN. unfold execute_command_with_pipes_and_redirection.
  rewrite Hsplit.
  assert ((length stages - 1 =? 0) = false) as -> by (apply Nat.eqb_neq; lia).
  reflexivity.
Qed.

(** X10: when [pipe] fails for pipe [j] of a pipeline, after succeeding for
    the pipes before it, the orchestrator reports it and returns at once:
    no process is forked, and the [2 j] descriptors of the pipes already
    created are left open. *)
Theorem X10_pipe_failure_aborts (os : os_world) (args : list string)
    (stages : list (list string)) (j : nat) (p : process) :
  split_commands args = SplitOk stages ->
  2 <= length stages ->
  j < length stages - 1 ->
  (forall i, i < j -> (0 <= pipe_ret os i)%Z) ->
  (pipe_ret os j < 0)%Z ->
  let r := execute_command_with_pipes_and_redirection os args p in
  r.2 = Returned /\
  trace r.1 = trace p ++ map (fun i => SysPipe i (pipe_ret os i)) (seq 0 j)
                      ++ [SysPipe j (pipe_ret os j); Perror "pipe"] /\
  pipe_fds r.1 = pipe_fds p ∪ list_to_set (seq 0 j ≫= both_ends).
Proof.
  intros Hsplit HN Hj Hok Hfail r. subst r.
  rewrite (pipeline_of_stages os args stages p) by done.
  set (n := length stages - 1) in *. unfold run_pipeline.
  assert (Hloop : for_each (create_pipe os) (seq 0 n) p
                  = (add_events [SysPipe j (pipe_ret os j); Perror "pipe"]
                       (Process (foreground_process_id p)
                          (pipe_fds p ∪ list_to_set (seq 0 j ≫= both_ends))
                          (std_in p) (std_out p) (fs p)
                          (trace p ++ map (fun i => SysPipe i (pipe_ret os i))
                                          (seq 0 j))),
                     Returned)).
  { replace n with (j + S (n - S j)) by lia.
    rewrite seq_app, for_each_app. simpl.
    rewrite (and_then_running _ _ _ _ (pipes_created os j Hok p)).
    rewrite and_then_passes; rewrite create_pipe_fails by done; done. }
  rewrite and_then_passes; rewrite Hloop; [|done].
  simpl. split; [done|]. split; [by rewrite <- !app_assoc|done].
Qed.

Lemma X10_witness :
  (execute_command_with_pipes_and_redirection
     (scenario 0 0 0 (fun i => if i =? 1 then (-1)%Z else 0%Z) parent_forks 3 false)
     ["ls"; "|"; "sort"; "|"; "wc"] fresh_shell).2
  = Returned.
Proof.
  apply (X10_pipe_failure_aborts _ ["ls"; "|"; "sort"; "|"; "wc"]
           [["ls"]; ["sort"]; ["wc"]] 1 fresh_shell).
  - reflexivity.
  - simpl. lia.
  - simpl. lia.
  - intros i Hi. assert (i = 0) as -> by lia. simpl. lia.
  - simpl. lia.
Defined.

(** X11: when [fork] fails for stage [i] of a pipeline, after every [pipe]
    and the forks before it succeeded, the orchestrator reports it and
    returns at once: it closes none of the pipe descriptors and waits for
    none of the children it has already started. *)
Theorem X11_fork_failure_aborts (os : os_world) (args : list string)
    (stages : list (list string)) (i : nat) (p : process) :
  split_commands args = SplitOk stages ->
  2 <= length stages ->
  i < length stages ->
  (forall j, j < length stages - 1 -> (0 <= pipe_ret os j)%Z) ->
  (forall k, k < i -> (0 < fork_ret os k)%Z) ->
  (fork_ret os i < 0)%Z ->
  let r := execute_command_with_pipes_and_redirection os args p in
  r.2 = Returned /\
  trace r.1 = trace p
                ++ map (fun j => SysPipe j (pipe_ret os j)) (seq 0 (length stages - 1))
                ++ map (fun k => SysFork (fork_ret os k)) (seq 0 i)
                ++ [SysFork (fork_ret os i); Perror "fork"] /\
  pipe_fds r.1
  = pipe_fds p ∪ list_to_set (seq 0 (length stages - 1) ≫= both_ends).
Proof.
  intros Hsplit HN Hi Hpipe Hfork Hfail r. subst r.
  rewrite (pipeline_of_stages os args stages p) by done.
  set (n := length stages - 1) in *. unfold run_pipeline.
  rewrite (and_then_running _ _ _ _ (pipes_created os n Hpipe p)).
  set (p1 := Process _ _ _ _ _ _).
  assert (Hloop : for_each (spawn_stage os stages n) (seq 0 (n + 1)) p1
                  = (add_events [SysFork (fork_ret os i); Perror "fork"]
                       (add_events (map (fun k => SysFork (fork_ret os k)) (seq 0 i))
                                   p1),
                     Returned)).
  { replace (n + 1) with (i + S (n - i)) by lia.
    rewrite seq_app, for_each_app. simpl.
    erewrite and_then_running; cycle 1.
    { apply spawn_stages_parent. intros k Hk. apply Hfork.
      apply elem_of_seq in Hk. lia. }
    rewrite and_then_passes; rewrite spawn_stage_fails by done; done. }
  rewrite and_then_passes; rewrite Hloop; [|done].
  unfold p1; simpl. split; [done|]. split; [by rewrite <- !app_assoc|done].
Qed.

Lemma X11_witness :
  (execute_command_with_pipes_and_redirection
     (scenario 0 0 0 (fun _ => 0%Z)
               (fun i => if i =? 1 then (-1)%Z else parent_forks i) 3 false)
     ["ls"; "|"; "wc"] fresh_shell).2
  = Returned.
Proof.
  apply (X11_fork_failure_aborts _ ["ls"; "|"; "wc"] [["ls"]; ["wc"]] 1 fresh_shell).
  - reflexivity.
  - simpl. lia.
  - simpl. lia.
  - intros j _. simpl. lia.
  - intros k Hk. assert (k = 0) as -> by lia. vm_compute. reflexivity.
  - simpl. lia.
Defined.

Lemma exits_finish (c : control) :
  (forall code, c = Exited code -> code = 1%Z) -> exits_with_one (finish c).
Proof. intros Hc p code H. by apply Hc. Qed.

Lemma exits_emit (e : event) : exits_with_one (emit e).
Proof. by intros p code H. Qed.

Lemma exits_and_then (a b : action) :
  exits_with_one a -> exits_with_one b -> exits_with_one (a ;; b).
Proof.
  intros Ha Hb p code. unfold and_then. specialize (Ha p).
  destruct (a p) as [q c]; simpl in *.
  destruct c; simpl; [apply Hb|done|apply Ha|done|done].
Qed.

Lemma exits_call (a : action) : exits_with_one a -> exits_with_one (call a).
Proof.
  intros Ha p code. unfold call. specialize (Ha p).
  destruct (a p) as [q c]; simpl in *. destruct c; simpl; auto; done.
Qed.

Lemma exits_if (c : bool) (a b : action) :
  exits_with_one a -> exits_with_one b -> exits_with_one (if c then a else b).
Proof. by destruct c. Qed.

Lemma exits_for_each {A : Type} (body : A -> action) (l : list A) :
  (forall x, exits_with_one (body x)) -> exits_with_one (for_each body l).
Proof.
  intros Hbody. induction l as [|x l IH]; simpl.
  - by intros p code H.
  - by apply exits_and_then.
Qed.

Lemma exits_sys_open (os : os_world) (path : string) (flags mode : Z) :
  exits_with_one (sys_open os path flags mode).
Proof. intros p code. unfold sys_open. by case_match. Qed.

Lemma exits_sys_dup2 (os : os_world) (src : stream) (target : Z) :
  exits_with_one (sys_dup2 os src target).
Proof. intros p code. unfold sys_dup2. by case_match. Qed.

Lemma exits_sys_pipe (os : os_world) (j : nat) :
  exits_with_one (sys_pipe os j).
Proof. intros p code. unfold sys_pipe. by case_match. Qed.

Lemma exits_sys_close_pipe (j e : nat) : exits_with_one (sys_close_pipe j e).
Proof. by intros p code H. Qed.

Lemma exits_exit_one : exits_with_one (finish (Exited 1)).
Proof. intros p code H. by simplify_eq/=. Qed.

Lemma exits_skip : exits_with_one skip.
Proof. by intros p code H. Qed.

Lemma exits_return : exits_with_one (finish Returned).
Proof. by intros p code H. Qed.

Create HintDb exits.

#[local] Hint Resolve exits_emit exits_and_then exits_call exits_for_each
  exits_sys_open exits_sys_dup2 exits_sys_pipe exits_sys_close_pipe
  exits_exit_one exits_skip exits_return : exits.

#[local] Hint Extern 1 (exits_with_one (if _ then _ else _)) =>
  apply exits_if : exits.

Lemma exits_exec_stage (os : os_world) (argv : list string) :
  exits_with_one (exec_stage os argv).
Proof.
  destruct argv as [|prog argv]; simpl; [auto with exits|].
  apply exits_and_then; [auto with exits|].
  apply exits_if; [auto with exits|]. by intros p code H.
Qed.

Lemma exits_execute_single_command (os : os_world) (args : list string) :
  exits_with_one (execute_single_command os args).
Proof.
  pose proof (exits_exec_stage os) as Hexec.
  unfold execute_single_command, redirect_output, redirect_input.
  destruct (find_redirection args 0) as [[i path|i path]|]; auto 12 with exits.
Qed.

Lemma exits_wire_child (os : os_world) (n k : nat) :
  exits_with_one (wire_child os n k).
Proof.
  unfold wire_child, dup2_or_exit, close_both.
  destruct (k =? 0); [|destruct (k =? n)]; auto 12 with exits.
Qed.

Lemma exits_orchestrator (os : os_world) (args : list string) :
  exits_with_one (execute_command_with_pipes_and_redirection os args).
Proof.
  pose proof (exits_execute_single_command os) as Hlaunch.
  pose proof (exits_wire_child os) as Hwire.
  unfold execute_command_with_pipes_and_redirection, run_pipeline, spawn_stage,
    create_pipe, close_both.
  destruct (split_commands args) as [| |stages].
  - auto with exits.
  - by intros p code H.
  - destruct (length stages - 1 =? 0); auto 15 with exits.
Qed.

Lemma run_external_child (os : os_world) (args : list string) (bg : bool)
    (p : process) :
  shell_fork_ret os = 0%Z ->
  run_external os args bg p
  = (call (execute_command_with_pipes_and_redirection os args) ;;
     finish (Exited 1)) (log (SysSigDfl SIGINT) (log (SysFork 0) p)).
Proof. intros Hzero. unfold run_external. rewrite Hzero. reflexivity. Qed.

Lemma call_then_exit_end (a : action) (q : process) :
  exits_with_one a -> child_end ((call a ;; finish (Exited 1)) q).2.
Proof.
  intros Ha. unfold and_then, call, child_end. specialize (Ha q).
  destruct (a q) as [q' c]; simpl in *. destruct c; simpl; eauto.
  left. f_equal. by apply Ha.
Qed.

(** X13: a process forked by the shell for an external command never comes
    back into the prompt loop, whatever its tokens and whatever the system
    calls return.  It ends in a successful [execvp], in [exit(1)], never in
    [exit] with another status, or in undefined behaviour. *)
Theorem X13_child_never_returns (os : os_world) (args : list string)
    (bg : bool) (p : process) :
  shell_fork_ret os = 0%Z ->
  child_end (run_external os args bg p).2.
Proof.
  intros Hzero. rewrite run_external_child by done.
  apply call_then_exit_end, exits_orchestrator.
Qed.

Lemma X13_witness :
  child_end (run_external (scenario 0 0 0 (fun _ => 0%Z) parent_forks 3 false)
                          ["ls"; "|"; "wc"] false fresh_shell).2.
Proof.
  apply (X13_child_never_returns
           (scenario 0 0 0 (fun _ => 0%Z) parent_forks 3 false)).
  reflexivity.
Defined.

(** X12: the child the shell forks for a pipeline of N >= 2 stages runs the
    orchestrator itself; when every [pipe] and [fork] succeeds it resets
    [SIGINT], creates the pipes, forks and awaits the stages, and because
    the orchestrator then returns to [main] it ends with [exit(1)],
    however the stages themselves ended. *)
Theorem X12_pipeline_child_exits_one (os : os_world) (args : list string)
    (stages : list (list string)) (bg : bool) (p : process) :
  shell_fork_ret os = 0%Z ->
  split_commands args = SplitOk stages ->
  2 <= length stages ->
  (forall j, j < length stages - 1 -> (0 <= pipe_ret os j)%Z) ->
  (forall i, i < length stages -> (0 < fork_ret os i)%Z) ->
  let r := run_external os args bg p in
  r.2 = Exited 1 /\
  trace r.1 = trace p ++ [SysFork 0; SysSigDfl SIGINT]
                      ++ pipeline_trace os (length stages).
Proof.
  intros Hzero Hsplit HN Hpipe Hfork r. subst r.
  rewrite run_external_child by done. unfold and_then, call.
  rewrite (pipeline_of_stages os args stages) by done.
  rewrite run_pipeline_parent; [|done|intros i Hi; apply Hfork; lia].
  simpl. replace (length stages - 1 + 1) with (length stages) by lia.
  split; [done|]. by rewrite <- !app_assoc.
Qed.

Lemma X12_witness :
  (run_external (scenario 0 0 0 (fun _ => 0%Z) parent_forks 3 false)
                ["ls"; "|"; "wc"] false fresh_shell).2
  = Exited 1.
Proof.
  apply (X12_pipeline_child_exits_one
           (scenario 0 0 0 (fun _ => 0%Z) parent_forks 3 false)
           ["ls"; "|"; "wc"] [["ls"]; ["wc"]] false fresh_shell).
  - reflexivity.
  - reflexivity.
  - simpl. lia.
  - intros j _. simpl. lia.
  - intros i _. simpl. unfold parent_forks. lia.
Defined.

(** Stage [k] from the entry of the orchestrator to its call of the
    launcher, every [pipe], the forks before its own and its [dup2] calls
    succeeding. *)
Lemma stage_reaches_launcher (os : os_world) (args : list string)
    (stages : list (list string)) (k : nat) (p : process) :
  split_commands args = SplitOk stages ->
  2 <= length stages ->
  k < length stages ->
  (forall j, j < length stages - 1 -> (0 <= pipe_ret os j)%Z) ->
  (forall i, i < k -> (0 < fork_ret os i)%Z) ->
  fork_ret os k = 0%Z ->
  (forall j e t, t = STDIN_FILENO \/ t = STDOUT_FILENO ->
                 (0 <= dup2_ret os (PipeStream j e) t)%Z) ->
  exists q : process,
    execute_command_with_pipes_and_redirection os args p
    = (call (execute_single_command os (nth k stages [])) ;; finish (Exited 1)) q /\
    std_in q = (if k =? 0 then std_in p else PipeStream (k - 1) 0) /\
    std_out q = (if k =? length stages - 1 then std_out p else PipeStream k 1) /\
    fs q = fs p.
Proof.
  intros Hsplit HN Hk Hpipe Hfork Hzero Hdup.
  rewrite (pipeline_of_stages os args stages p) by done.
  set (n := length stages - 1) in *.
  rewrite (run_pipeline_child os stages n k) by (done || lia).
  unfold stage_child. set (q0 := Process _ _ _ _ _ _).
  rewrite (and_then_running _ _ _ _ (wire_child_ok os n k q0 Hdup)).
  destruct (wired_streams os n k q0 ltac:(lia)) as (Hin & Hout & _).
  eexists. split; [reflexivity|]. split; [exact Hin|]. split; [exact Hout|].
  unfold closes, wired, dup_to, set_std, log; simpl.
  destruct (k =? 0); [|destruct (k =? n)]; reflexivity.
Qed.

Lemma launcher_output_success (os : os_world) (prog : string)
    (pre : list string) (path : string) (post : list string) (q : process) :
  ">" ∉ prog :: pre -> "<" ∉ prog :: pre ->
  (0 <= open_ret os path output_flags)%Z ->
  (0 <= dup2_ret os (FileStream path output_flags) STDOUT_FILENO)%Z ->
  execvp_fails os prog = false ->
  exists q',
    execute_single_command os ((prog :: pre) ++ ">" :: path :: post) q
    = (q', Execed prog (prog :: pre)) /\
    std_out q' = FileStream path output_flags /\
    std_in q' = std_in q.
Proof.
  intros Hout Hin Hopen Hdup2 Hexec.
  rewrite launcher_with_redirection by (done || by left).
  apply Z.ltb_ge in Hopen, Hdup2.
  run_launcher. rewrite Hopen. simpl. rewrite Hdup2. simpl. rewrite Hexec. simpl.
  eexists. split; [reflexivity|]. done.
Qed.

(** X14: the redirection of a stage overrides its pipe wiring.  In stage
    [k] of a pipeline whose tokens have [> path] as first redirection, all
    calls succeeding, the program is executed on the tokens before the
    symbol with the file as standard output, not the pipe to the next
    stage, while standard input stays as the wiring left it. *)
Theorem X14_redirection_overrides_pipe (os : os_world) (args : list string)
    (stages : list (list string)) (k : nat) (prog : string)
    (pre : list string) (path : string) (post : list string) (p : process) :
  split_commands args = SplitOk stages ->
  2 <= length stages ->
  k < length stages ->
  (forall j, j < length stages - 1 -> (0 <= pipe_ret os j)%Z) ->
  (forall i, i < k -> (0 < fork_ret os i)%Z) ->
  fork_ret os k = 0%Z ->
  (forall j e t, t = STDIN_FILENO \/ t = STDOUT_FILENO ->
                 (0 <= dup2_ret os (PipeStream j e) t)%Z) ->
  nth k stages [] = (prog :: pre) ++ ">" :: path :: post ->
  ">" ∉ prog :: pre -> "<" ∉ prog :: pre ->
  (0 <= open_ret os path output_flags)%Z ->
  (0 <= dup2_ret os (FileStream path output_flags) STDOUT_FILENO)%Z ->
  execvp_fails os prog = false ->
  let r := execute_command_with_pipes_and_redirection os args p in
  r.2 = Execed prog (prog :: pre) /\
  std_out r.1 = FileStream path output_flags /\
  std_in r.1 = (if k =? 0 then std_in p else PipeStream (k - 1) 0).
Proof.
  intros Hsplit HN Hk Hpipe Hfork Hzero Hdup Hstage Hout Hin Hopen Hdup2 Hexec r.
  subst r.
  destruct (stage_reaches_launcher os args stages k p) as (q & -> & Hqin & _);
    try done.
  destruct (launcher_output_success os prog pre path post q)
    as (q' & Hl & Hqout & Hq'in); try done.
  rewrite Hstage. unfold and_then, call. rewrite Hl. simpl.
  split; [done|]. split; [done|]. congruence.
Qed.

Lemma X14_witness :
  std_out (execute_command_with_pipes_and_redirection (stage_world 0)
             ["ls"; ">"; "out.txt"; "|"; "wc"] fresh_shell).1
  = FileStream "out.txt" output_flags.
Proof.
  destruct (X14_redirection_overrides_pipe (stage_world 0)
              ["ls"; ">"; "out.txt"; "|"; "wc"]
              [["ls"; ">"; "out.txt"]; ["wc"]] 0 "ls" [] "out.txt" []
              fresh_shell) as (_ & H & _).
  - reflexivity.
  - simpl. lia.
  - simpl. lia.
  - intros j _. simpl. lia.
  - intros i Hi. lia.
  - reflexivity.
  - intros j e t [-> | ->]; simpl; unfold STDIN_FILENO, STDOUT_FILENO; lia.
  - reflexivity.
  - apply (bool_decide_unpack _). vm_compute. exact I.
  - apply (bool_decide_unpack _). vm_compute. exact I.
  - simpl. lia.
  - simpl. unfold STDOUT_FILENO. lia.
  - reflexivity.
  - exact H.
Defined.

(** X15: the child the shell forks for a command without pipe and without
    redirection symbol resets [SIGINT] to its default action and calls
    [execvp] on the first token with the whole token sequence as argument
    vector; when [execvp] succeeds nothing else has happened in it. *)
Theorem X15_simple_command_executed (os : os_world) (prog : string)
    (rest : list string) (bg : bool) (p : process) :
  shell_fork_ret os = 0%Z ->
  length (prog :: rest) < MAX_ARGUMENTS ->
  "|" ∉ prog :: rest -> ">" ∉ prog :: rest -> "<" ∉ prog :: rest ->
  execvp_fails os prog = false ->
  run_external os (prog :: rest) bg p
  = (add_events [SysFork 0; SysSigDfl SIGINT; SysExecvp prog (prog :: rest)] p,
     Execed prog (prog :: rest)).
Proof.
  intros Hzero Hlen Hpipe Hout Hin Hexec.
  rewrite run_external_child by done.
  unfold execute_command_with_pipes_and_redirection, split_commands.
  rewrite split_loop_no_pipe by (done || simpl in *; lia). simpl.
  unfold execute_single_command. rewrite find_redirection_absent by done.
  unfold and_then, call, exec_stage, emit, finish; simpl.
  rewrite Hexec. unfold and_then; simpl. unfold add_events, log; simpl.
  by rewrite <- !app_assoc.
Qed.

Lemma X15_witness :
  (run_external (scenario 0 0 0 (fun _ => 0%Z) parent_forks 3 false)
                ["ls"; "-l"] false fresh_shell).2
  = Execed "ls" ["ls"; "-l"].
Proof.
  rewrite (X15_simple_command_executed
             (scenario 0 0 0 (fun _ => 0%Z) parent_forks 3 false) "ls" ["-l"]).
  - reflexivity.
  - reflexivity.
  - unfold MAX_ARGUMENTS. simpl. lia.
  - apply (bool_decide_unpack _). vm_compute. exact I.
  - apply (bool_decide_unpack _). vm_compute. exact I.
  - apply (bool_decide_unpack _). vm_compute. exact I.
  - reflexivity.
Defined.

(** ** The shell and its jobs *)

(** X16: a background job.  In the shell, after a successful [fork], the
    slot of the foreground process is set to -1 and the notice is printed;
    the shell starts no watchdog and waits for nothing, and an interrupt
    arriving afterwards sends no signal at all. *)
Theorem X16_background_job (os : os_world) (args : list string) (p : process) :
  (0 < shell_fork_ret os)%Z ->
  let r := run_external os args true p in
  r = (add_events [SysFork (shell_fork_ret os);
                   Stdout ("[" +:+ pretty (shell_fork_ret os)
                           +:+ "] Background process started" +:+ nl)]
                  (set_foreground (-1) p),
       Running) /\
  handle_interrupt_signal SIGINT r.1 = (r.1, Running).
Proof.
  intros Hpos r. subst r. unfold run_external.
  assert ((shell_fork_ret os <? 0)%Z = false) as -> by (apply Z.ltb_ge; lia).
  assert ((shell_fork_ret os =? 0)%Z = false) as -> by (apply Z.eqb_neq; lia).
  unfold and_then, emit, register_foreground; simpl.
  unfold add_events, log, set_foreground; simpl.
  rewrite <- !app_assoc. split; reflexivity.
Qed.

Lemma X16_witness :
  foreground_process_id
    (run_external (shell_world "sleep 30 &" 0) ["sleep"; "30"] true fresh_shell).1
  = (-1)%Z.
Proof.
  destruct (X16_background_job (shell_world "sleep 30 &" 0) ["sleep"; "30"]
              fresh_shell) as [H _].
  - simpl. lia.
  - rewrite H. reflexivity.
Defined.

(** X17: the watchdog.  The process in which the second [fork] of a
    foreground job returned 0 resets [SIGINT], sleeps for the 10 seconds of
    the timeout, prints the timeout notice and sends [SIGINT] to the
    foreground child, without looking whether that child is still there,
    and exits with status 0. *)
Theorem X17_watchdog_fires (os : os_world) (args : list string) (p : process) :
  (0 < shell_fork_ret os)%Z ->
  timeout_fork_ret os = 0%Z ->
  run_external os args false p
  = (add_events [SysFork (shell_fork_ret os); SysFork 0; SysSigDfl SIGINT;
                 SysSleep 10;
                 Stdout ("Foreground process timed out after 10 seconds." +:+ nl);
                 SysKill (shell_fork_ret os) SIGINT]
                (set_foreground (shell_fork_ret os) p),
     Exited 0).
Proof.
  intros Hpos Hzero. rewrite run_external_foreground by done.
  unfold supervise_foreground. rewrite Hzero.
  unfold and_then, call, terminate_after_timeout, emit, register_foreground,
    finish; simpl.
  unfold add_events, log, set_foreground; simpl.
  by rewrite <- !app_assoc.
Qed.

Lemma X17_witness :
  (run_external (scenario 100 0 0 (fun _ => 0%Z) parent_forks 3 false)
                ["sleep"; "30"] false fresh_shell).2
  = Exited 0.
Proof.
  rewrite (X17_watchdog_fires (scenario 100 0 0 (fun _ => 0%Z) parent_forks 3 false)).
  - reflexivity.
  - simpl. lia.
  - reflexivity.
Defined.

(** X18: when the [fork] of the watchdog fails, the shell reports it and
    goes back to its prompt at once: it does not wait for the foreground
    child, whose pid stays in the foreground slot. *)
Theorem X18_watchdog_fork_failure (os : os_world) (args : list string)
    (p : process) :
  (0 < shell_fork_ret os)%Z ->
  (timeout_fork_ret os < 0)%Z ->
  run_external os args false p
  = (add_events [SysFork (shell_fork_ret os); SysFork (timeout_fork_ret os);
                 Perror "fork for timeout process"]
                (set_foreground (shell_fork_ret os) p),
     Running).
Proof.
  intros Hpos Hfail. rewrite run_external_foreground by done.
  unfold supervise_foreground. apply Z.ltb_lt in Hfail. rewrite Hfail.
  unfold and_then, emit, register_foreground; simpl.
  unfold add_events, log, set_foreground; simpl.
  by rewrite <- !app_assoc.
Qed.

Lemma X18_witness :
  trace (run_external (scenario 100 (-1) 0 (fun _ => 0%Z) parent_forks 3 false)
                      ["ls"] false fresh_shell).1
  = [SysFork 100; SysFork (-1); Perror "fork for timeout process"].
Proof.
  rewrite (X18_watchdog_fork_failure
             (scenario 100 (-1) 0 (fun _ => 0%Z) parent_forks 3 false)).
  - reflexivity.
  - simpl. lia.
  - simpl. lia.
Defined.

Lemma stays_emit (e : event) : is_spawn_event e = false -> stays_in_shell (emit e).
Proof.
  intros He p. split; [done|]. split; [done|].
  exists [e]. split; [done|]. by constructor.
Qed.

Lemma stays_skip : stays_in_shell skip.
Proof.
  intros p. split; [done|]. split; [done|]. exists []. by rewrite app_nil_r.
Qed.

Lemma stays_and_then (a b : action) :
  stays_in_shell a -> stays_in_shell b -> stays_in_shell (a ;; b).
Proof.
  intros Ha Hb p. unfold and_then.
  destruct (Ha p) as (Hc & Hfg & evs & Htr & Hev).
  destruct (a p) as [q c]; simpl in *. subst c.
  destruct (Hb q) as (Hc' & Hfg' & evs' & Htr' & Hev').
  split; [done|]. split; [congruence|].
  exists (evs ++ evs'). split.
  - by rewrite Htr', Htr, app_assoc.
  - by apply Forall_app.
Qed.

Lemma stays_if (c : bool) (a b : action) :
  stays_in_shell a -> stays_in_shell b -> stays_in_shell (if c then a else b).
Proof. by destruct c. Qed.

Lemma stays_for_each {A : Type} (body : A -> action) (l : list A) :
  (forall x, stays_in_shell (body x)) -> stays_in_shell (for_each body l).
Proof.
  intros Hbody. induction l as [|x l IH]; simpl.
  - apply stays_skip.
  - by apply stays_and_then.
Qed.

Create HintDb shell.

#[local] Hint Resolve stays_skip stays_and_then stays_for_each : shell.

#[local] Hint Extern 1 (stays_in_shell (emit _)) =>
  apply stays_emit; reflexivity : shell.

#[local] Hint Extern 1 (stays_in_shell (if _ then _ else _)) =>
  apply stays_if : shell.

Lemma stays_echo_argument (os : os_world) (argument : string) :
  stays_in_shell (echo_argument os argument).
Proof. unfold echo_argument. repeat case_match; auto with shell. Qed.

(** X19: the built-in commands [cd], [pwd], [echo] and [env] run inside
    the shell process: whatever their arguments and whatever [chdir],
    [getcwd] and [getenv] return, they fork nothing, create no pipe, leave
    the foreground slot alone and end with the shell back at its loop. *)
Theorem X19_builtins_stay_in_shell (os : os_world) (name : string)
    (rest : list string) (bg : bool) (p : process) :
  name ∈ ["cd"; "pwd"; "echo"; "env"] ->
  let r := dispatch os (name :: rest) bg p in
  r.2 = Running /\
  foreground_process_id r.1 = foreground_process_id p /\
  exists evs, trace r.1 = trace p ++ evs /\
              Forall (fun e => is_spawn_event e = false) evs.
Proof.
  intros Hname r. subst r.
  pose proof (stays_echo_argument os) as Hecho.
  assert (Hall : stays_in_shell (dispatch os (name :: rest) bg)).
  { unfold dispatch, builtin_cd, change_directory, builtin_pwd, builtin_echo,
      builtin_env.
    set_unfold. destruct Hname as [->|[->|[->|[->|[]]]]]; simpl.
    - destruct (rest !! 0); [|destruct (getenv_ret os "HOME")];
        auto 10 with shell.
    - destruct (getcwd_ret os 1); auto with shell.
    - auto 10 with shell.
    - destruct (rest !! 0) as [v|]; [destruct (getenv_ret os v)|];
        auto 10 with shell. }
  apply Hall.
Qed.

Lemma X19_witness :
  (dispatch (shell_world "cd /tmp" 0) ["cd"; "/tmp"] false fresh_shell).2 = Running.
Proof.
  apply (X19_builtins_stay_in_shell (shell_world "cd /tmp" 0) "cd" ["/tmp"]
           false fresh_shell).
  apply (bool_decide_unpack _). vm_compute. exact I.
Defined.

(** X20: the background marker.  A token sequence that fits the argument
    array is run in the background, with its last token removed, exactly
    when that last token is [&]; an [&] anywhere else is an ordinary
    token. *)
Theorem X20_background_marker_is_last_token (os : os_world)
    (front : list string) (final_argument : string) (p : process) :
  length (front ++ [final_argument]) < MAX_ARGUMENTS ->
  run_tokens os (front ++ [final_argument]) p
  = if String.eqb final_argument "&"
    then dispatch os front true p
    else dispatch os (front ++ [final_argument]) false p.
Proof.
  intros Hlen. unfold run_tokens. rewrite last_snoc.
  assert ((MAX_ARGUMENTS <=? length (front ++ [final_argument])) = false) as ->
    by (apply Nat.leb_gt; lia).
  rewrite length_app. simpl.
  replace (length front + 1 - 1) with (length front) by lia.
  rewrite take_app_length. by destruct (String.eqb final_argument "&").
Qed.

Lemma X20_witness :
  run_tokens (shell_world "ls & -l" 0) (["ls"; "&"] ++ ["-l"]) fresh_shell
  = dispatch (shell_world "ls & -l" 0) ["ls"; "&"; "-l"] false fresh_shell.
Proof.
  rewrite (X20_background_marker_is_last_token (shell_world "ls & -l" 0)
             ["ls"; "&"] "-l" fresh_shell).
  - reflexivity.
  - unfold MAX_ARGUMENTS. simpl. lia.
Defined.

(** X21: what the shell says about the foreground child.  For a child that
    called [exit] with a status from 1 to 255 the shell writes exactly
    [Process exited with status] and that status to standard error; for
    status 0, and for a child killed by any signal from 1 to 126, it writes
    nothing. *)
Theorem X21_exit_status_message (code sig : Z) (p : process) :
  (1 <= code < 256)%Z ->
  (1 <= sig < 127)%Z ->
  report_status (W_EXITCODE code 0) p
  = (log (Stderr ("Process exited with status " +:+ pretty code +:+ nl)) p,
     Running) /\
  report_status (W_EXITCODE 0 0) p = (p, Running) /\
  report_status (W_EXITCODE 0 sig) p = (p, Running).
Proof.
  intros Hcode Hsig. split; [|split].
  - destruct (exit_status_decoded code ltac:(lia)) as (Hex & Hst & _).
    unfold report_status. rewrite Hex, Hst.
    assert ((code =? 0)%Z = false) as -> by (apply Z.eqb_neq; lia).
    reflexivity.
  - reflexivity.
  - destruct (signal_status_decoded sig Hsig) as (_ & Hex).
    unfold report_status. by rewrite Hex.
Qed.

Lemma X21_witness :
  report_status (W_EXITCODE 2 0) fresh_shell
  = (log (Stderr ("Process exited with status 2" +:+ nl)) fresh_shell, Running).
Proof.
  destruct (X21_exit_status_message 2 SIGINT fresh_shell) as [H _].
  - lia.
  - unfold SIGINT. lia.
  - exact H.
Defined.

(** ** Reading and tokenizing a line *)

Lemma append_nil_l (s : string) : EmptyString +:+ s = s.
Proof. reflexivity. Qed.

Lemma append_cons (c : ascii) (s t : string) :
  String c s +:+ t = String c (s +:+ t).
Proof. reflexivity. Qed.

Lemma append_nil_r (s : string) : s +:+ EmptyString = s.
Proof. induction s as [|c s IH]; [done|]. by rewrite append_cons, IH. Qed.

Lemma append_assoc (s t u : string) : (s +:+ t) +:+ u = s +:+ (t +:+ u).
Proof. induction s as [|c s IH]; [done|]. by rewrite !append_cons, IH. Qed.

Lemma all_chars_snoc (f : ascii -> bool) (s : string) (c : ascii) :
  all_chars f s = true -> f c = true ->
  all_chars f (s +:+ String c EmptyString) = true.
Proof.
  intros Hs Hc. induction s as [|a s IH].
  - rewrite append_nil_l. simpl. by rewrite Hc.
  - rewrite append_cons. simpl in *. apply andb_prop in Hs as [Ha Hs].
    by rewrite Ha, IH.
Qed.

Lemma snoc_not_empty (s : string) (c : ascii) :
  s +:+ String c EmptyString <> EmptyString.
Proof. by destruct s. Qed.

Lemma strtok_scan_spec (delimiters : string) (s : string) :
  forall (pos : nat) (cur : option (nat * string)),
    (forall t, cur = Some t -> proper_token delimiters t.2) ->
    Forall (fun t => proper_token delimiters t.2)
           (strtok_scan delimiters s pos cur) /\
    glue (map snd (strtok_scan delimiters s pos cur))
    = pending cur +:+ keep_chars (not_delimiter delimiters) s.
Proof.
  induction s as [|c s IH]; intros pos cur Hcur; simpl.
  - destruct cur as [t|]; simpl.
    + split; [constructor; [by apply Hcur|constructor]|]. reflexivity.
    + split; [constructor|reflexivity].
  - assert (Hn : not_delimiter delimiters c = negb (is_delimiter delimiters c))
      by done.
    rewrite Hn. clear Hn.
    destruct (is_delimiter delimiters c) eqn:Hc; simpl.
    + destruct (IH (S pos) None) as [Hall Hglue]; [done|].
      destruct cur as [t|]; simpl.
      * split; [constructor; [by apply Hcur|done]|].
        by rewrite Hglue.
      * split; [done|]. by rewrite Hglue.
    + destruct cur as [[start tok]|]; simpl.
      * destruct (Hcur _ eq_refl) as [Hne Hfree]; simpl in *.
        destruct (IH (S pos) (Some (start, tok +:+ String c EmptyString)))
          as [Hall Hglue].
        { intros t ?; simplify_eq. split; [apply snoc_not_empty|].
          apply all_chars_snoc; [done|]. unfold not_delimiter. by rewrite Hc. }
        split; [done|]. rewrite Hglue. simpl.
        by rewrite append_assoc, append_cons, append_nil_l.
      * destruct (IH (S pos) (Some (pos, String c EmptyString)))
          as [Hall Hglue].
        { intros t ?; simplify_eq. split; [done|]. simpl.
          unfold not_delimiter. by rewrite Hc. }
        split; [done|]. rewrite Hglue. simpl.
        by rewrite append_cons, !append_nil_l.
Qed.

(** X22: what [strtok] returns over a buffer.  Every token is non-empty
    and free of delimiter characters, and the tokens glued together are the
    buffer with its delimiter characters taken out: nothing else is lost,
    and nothing is reordered. *)
Theorem X22_tokens_cover_the_line (delimiters s : string) :
  Forall (fun t => proper_token delimiters t.2) (strtok_all delimiters s) /\
  glue (map snd (strtok_all delimiters s))
  = keep_chars (not_delimiter delimiters) s.
Proof.
  unfold strtok_all.
  destruct (strtok_scan_spec delimiters s 0 None) as [Hall Hglue]; [done|].
  split; [done|]. by rewrite Hglue.
Qed.

Lemma strtok_scan_blank (delimiters s : string) :
  forall pos : nat,
    all_chars (is_delimiter delimiters) s = true ->
    strtok_scan delimiters s pos None = [].
Proof.
  induction s as [|c s IH]; intros pos Hs; simpl in *; [done|].
  apply andb_prop in Hs as [Hc Hs]. rewrite Hc. by apply IH.
Qed.

Lemma strip_newline_blank (delimiters s : string) :
  all_chars (is_delimiter delimiters) s = true ->
  all_chars (is_delimiter delimiters) (strip_newline s) = true.
Proof.
  induction s as [|c s IH]; [done|]. intros Hs. simpl in Hs.
  apply andb_prop in Hs as [Hc Hs]. simpl.
  destruct s as [|c' s'].
  - destruct (Ascii.eqb c "010"); simpl; [done|by rewrite Hc].
  - simpl in *. rewrite Hc. simpl. by apply IH.
Qed.

(** X23: a line made of blanks only.  When the buffer read from standard
    input holds nothing but spaces, tabs, carriage returns and newlines (or
    nothing at all), the turn of the loop prints the prompt and does
    nothing else. *)
Theorem X23_blank_line_does_nothing (os : os_world) (cwd buffer : string)
    (p : process) :
  getcwd_ret os 0 = Some cwd ->
  fgets_ret os = ReadLine buffer ->
  all_chars (is_delimiter TOKEN_DELIMITERS) buffer = true ->
  shell_iteration os p = (log (Stdout (cwd +:+ " " +:+ SHELL_PROMPT)) p, Running).
Proof.
  intros Hcwd Hread Hblank. unfold shell_iteration. rewrite Hcwd, Hread.
  unfold and_then, emit; simpl.
  destruct (String.length (strip_newline buffer) =? 0); [done|].
  unfold tokenize, strtok_all.
  rewrite strtok_scan_blank by (by apply strip_newline_blank).
  reflexivity.
Qed.

Lemma X23_witness :
  (shell_iteration (shell_world "   " 0) fresh_shell).2 = Running.
Proof.
  rewrite (X23_blank_line_does_nothing (shell_world "   " 0) "/home/user"
             ("   " +:+ nl) fresh_shell).
  - reflexivity.
  - reflexivity.
  - reflexivity.
  - reflexivity.
Defined.

Lemma last_char_snoc (c q : ascii) (body : string) :
  last_char c (body +:+ String q EmptyString) = q.
Proof.
  revert c. induction body as [|a body IH]; intros c; [done|].
  rewrite append_cons. simpl. apply IH.
Qed.

Lemma drop_last_char_snoc (q : ascii) (body : string) :
  drop_last_char (body +:+ String q EmptyString) = body.
Proof.
  induction body as [|a body IH]; [done|].
  rewrite append_cons. simpl.
  destruct (body +:+ String q EmptyString) eqn:E.
  - by destruct body.
  - by rewrite IH.
Qed.

(** X24: quote stripping.  A token that starts with a quote character and
    ends with the same one loses exactly those two characters; a token that
    does not start with a quote, or starts with one and ends with another
    character, is kept as it is.  A token that is a single quote character
    becomes the empty token, and the store that empties it falls before the
    buffer when the token is its first character. *)
Theorem X24_matching_quotes_stripped (q : ascii) (body : string) (offset : nat) :
  is_quote q = true ->
  process_token_quotes (offset, String q (body +:+ String q EmptyString))
  = Some body /\
  (forall rest, last_char q rest <> q ->
                process_token_quotes (offset, String q rest)
                = Some (String q rest)) /\
  (forall c rest, is_quote c = false ->
                  process_token_quotes (offset, String c rest)
                  = Some (String c rest)) /\
  process_token_quotes (S offset, String q EmptyString) = Some EmptyString /\
  process_token_quotes (0, String q EmptyString) = None.
Proof.
  intros Hq. unfold process_token_quotes. rewrite Hq.
  split; [|split; [|split; [|split]]].
  - rewrite last_char_snoc, Ascii.eqb_refl, drop_last_char_snoc.
    by destruct body.
  - intros rest Hlast.
    destruct (Ascii.eqb_spec q (last_char q rest)); [congruence|done].
  - intros c rest Hc. by rewrite Hc.
  - simpl. by rewrite Ascii.eqb_refl.
  - simpl. by rewrite Ascii.eqb_refl.
Qed.

Lemma X24_witness :
  process_token_quotes
    (5, String "039"%char ("hello world" +:+ String "039"%char EmptyString))
  = Some "hello world".
Proof.
  apply (X24_matching_quotes_stripped "039"%char "hello world" 5).
  reflexivity.
Defined.

Lemma strip_newline_snoc (s : string) : strip_newline (s +:+ nl) = s.
Proof.
  induction s as [|c s IH]; [done|].
  rewrite append_cons. simpl.
  destruct (s +:+ nl) eqn:E.
  - by destruct s.
  - by rewrite IH.
Qed.

Lemma strip_newline_other (s : string) (c : ascii) :
  last_char c s <> "010"%char -> strip_newline s = s.
Proof.
  revert c. induction s as [|a s IH]; intros c Hlast; [done|].
  simpl in *. destruct s as [|b s'].
  - simpl in Hlast. by destruct (Ascii.eqb_spec a "010").
  - f_equal. by apply (IH a).
Qed.

(** X25: the trailing newline.  Exactly one newline is taken off the end of
    the buffer, and a buffer that does not end with a newline (a last line
    without one, or a line cut at the size of the buffer) is left as it
    is. *)
Theorem X25_one_newline_removed (s : string) :
  strip_newline (s +:+ nl) = s /\
  (last_char " "%char s <> "010"%char -> strip_newline s = s).
Proof.
  split; [apply strip_newline_snoc|].
  intros Hlast. by apply (strip_newline_other s " "%char).
Qed.

Lemma X25_witness : strip_newline "ls -l" = "ls -l".
Proof.
  apply (X25_one_newline_removed "ls -l"). simpl. discriminate.
Defined.

(** ** The [setenv] built-in *)

Lemma strtok_scan_extend (delimiters : string) (tok : string) :
  forall (s : string) (pos start : nat) (t0 : string),
    all_chars (not_delimiter delimiters) tok = true ->
    strtok_scan delimiters (tok +:+ s) pos (Some (start, t0))
    = strtok_scan delimiters s (pos + String.length tok)
                  (Some (start, t0 +:+ tok)).
Proof.
  induction tok as [|c tok IH]; intros s pos start t0 Hfree.
  - rewrite append_nil_l, append_nil_r. simpl. by rewrite Nat.add_0_r.
  - simpl in Hfree. apply andb_prop in Hfree as [Hc Hfree].
    unfold not_delimiter in Hc. apply negb_true_iff in Hc.
    rewrite append_cons. simpl. rewrite Hc, IH by done.
    rewrite append_assoc, append_cons, append_nil_l.
    by replace (S pos + String.length tok) with (pos + S (String.length tok)) by lia.
Qed.

Lemma strtok_scan_start (delimiters : string) (c : ascii) (tok s : string)
    (pos : nat) :
  all_chars (not_delimiter delimiters) (String c tok) = true ->
  strtok_scan delimiters (String c tok +:+ s) pos None
  = strtok_scan delimiters s (pos + S (String.length tok))
                (Some (pos, String c tok)).
Proof.
  intros Hfree. simpl in Hfree. apply andb_prop in Hfree as [Hc Hfree].
  unfold not_delimiter in Hc. apply negb_true_iff in Hc.
  rewrite append_cons. simpl. rewrite Hc, strtok_scan_extend by done.
  rewrite append_cons, append_nil_l.
  by replace (S pos + String.length tok) with (pos + S (String.length tok)) by lia.
Qed.

Lemma strtok_single (delimiters token : string) :
  proper_token delimiters token ->
  strtok_all delimiters token = [(0, token)].
Proof.
  intros [Hne Hfree]. destruct token as [|c tok]; [done|].
  unfold strtok_all. rewrite <- (append_nil_r (String c tok)) at 1.
  by rewrite strtok_scan_start.
Qed.

Lemma strtok_assignment (name value : string) :
  proper_token "=" name -> proper_token "=" value ->
  strtok_all "=" (name +:+ "=" +:+ value)
  = [(0, name); (S (String.length name), value)].
Proof.
  intros [Hn Hnfree] [Hv Hvfree].
  destruct name as [|c n]; [done|]. destruct value as [|v w]; [done|].
  unfold strtok_all. rewrite strtok_scan_start by done.
  rewrite append_cons, append_nil_l.
  change (strtok_scan "=" (String "="%char (String v w)) (0 + S (String.length n))
                      (Some (0, String c n)))
    with ((0, String c n)
            :: strtok_scan "=" (String v w) (S (0 + S (String.length n))) None).
  rewrite <- (append_nil_r (String v w)) at 1.
  rewrite strtok_scan_start by done. simpl. reflexivity.
Qed.

(** X26: the built-in [setenv].  Without argument it reports a missing
    argument; with an argument that holds no [=] it reports the invalid
    format; and with an argument of the form NAME=VALUE, both parts
    non-empty, the loop that cuts the argument in parts goes round a second
    time and stores into [env_var_parts[2]], past the end of the array of
    two elements, before [setenv] is ever called. *)
Theorem X26_setenv_parts (cmd name value : string) (more : list string)
    (p : process) :
  proper_token "=" name -> proper_token "=" value ->
  builtin_setenv (cmd :: (name +:+ "=" +:+ value) :: more) p = (p, Undefined) /\
  builtin_setenv (cmd :: name :: more) p
  = (log (Stderr ("setenv: invalid format. Use NAME=VALUE" +:+ nl)) p, Running) /\
  builtin_setenv [cmd] p
  = (log (Stderr ("setenv: missing argument" +:+ nl)) p, Running).
Proof.
  intros Hname Hvalue. unfold builtin_setenv. simpl.
  rewrite strtok_assignment, strtok_single by done. done.
Qed.

Lemma X26_witness :
  builtin_setenv ["setenv"; "EDITOR" +:+ "=" +:+ "vi"] fresh_shell
  = (fresh_shell, Undefined).
Proof.
  apply (X26_setenv_parts "setenv" "EDITOR" "vi" [] fresh_shell).
  - split; [done|reflexivity].
  - split; [done|reflexivity].
Defined.
